(** * pdf-helper: page model, preview loader and merge pipeline

    A shallow embedding of [src/types.ts], [src/services/pdfService.ts] and
    the event handlers of the [App] component, followed by the properties of
    the page set, the preview loader and the merge compiler.

    Conventions of the embedding:
    - a JavaScript array of pages is the list of its elements, each element
      being a page object or [undefined];
    - a [number] used as an array index is an integer ([Z]); fractional
      indices and NaN are outside the model;
    - the pdf.js and pdf-lib libraries and the canvas are capabilities of the
      environment, given as the variables of a section;
    - a rejected promise or a thrown exception is the [Raised] outcome;
      console output, alerts, decoder calls and the download are recorded in
      an event log, oldest event first. *)

From stdpp Require Import gmap strings list pretty.
From Stdlib Require Import ZArith Lia Ascii.

Open Scope string_scope.
Open Scope list_scope.
Open Scope Z_scope.

(** ** Data model ([src/types.ts] and the browser's [File]) *)

Module File.
(** The browser's [File]: the three attributes the code reads, and the
    bytes delivered by [arrayBuffer()]. A file is taken with its bytes
    delivered: a read that fails is outside the model, and what is stated
    of a load or a merge is stated from the delivery of the bytes on. *)
Record t := mk {
  name : string;
  size : N;
  type : string;
  data : string
}.
End File.

Module PDFPage.
Record t := mk {
  id : string;
  sourceFileId : string;
  pageIndex : nat;
  previewUrl : string;
  originalFileName : string
}.
End PDFPage.

Module PDFFile.
Record t := mk {
  id : string;
  name : string;
  file : File.t;
  pageCount : nat
}.
End PDFFile.

(** An element of the [allPages] array at run time. *)
Inductive slot :=
  | undefined
  | Page (p : PDFPage.t).

Inductive direction := left | right.

(** The React state of [App]. *)
Record AppState := mkState {
  files : list PDFFile.t;
  allPages : list slot;
  isLoading : bool
}.

Definition setFiles (f : list PDFFile.t -> list PDFFile.t) (st : AppState) : AppState :=
  mkState (f (files st)) (allPages st) (isLoading st).

Definition setAllPages (f : list slot -> list slot) (st : AppState) : AppState :=
  mkState (files st) (f (allPages st)) (isLoading st).

Definition setIsLoading (b : bool) (st : AppState) : AppState :=
  mkState (files st) (allPages st) b.

(** The page set of well-formed page references. *)
Definition pageSet (ps : list PDFPage.t) : list slot := Page <$> ps.

(** ** JavaScript arrays *)

Module JS.

(** [a[k]]: the element when [k] is an index of the array, [undefined]
    otherwise. *)
Definition get (a : list slot) (k : Z) : slot :=
  if k <? 0 then undefined
  else default undefined (a !! Z.to_nat k).

(** [a[k] = v]: replaces the element at an index of the array; at
    [k >= length] the array grows up to [k], the elements in between
    reading as [undefined]; at a negative [k] the assignment creates a
    property that is no element, and the sequence of elements (what spread,
    [map], [filter] and [length] see) stays as it was. *)
Definition set (a : list slot) (k : Z) (v : slot) : list slot :=
  if k <? 0 then a
  else
    let n := Z.to_nat k in
    if (n <? length a)%nat then <[n := v]> a
    else a ++ replicate (n - length a) undefined ++ [v].

(** [a.filter((x, i) => f(x, i))], the index counted from [i]. *)
Fixpoint filter_from {A} (i : nat) (f : A -> nat -> bool) (a : list A) : list A :=
  match a with
  | [] => []
  | x :: a' =>
      if f x i then x :: filter_from (S i) f a' else filter_from (S i) f a'
  end.

Definition filter {A} (f : A -> nat -> bool) (a : list A) : list A :=
  filter_from 0 f a.

(** [a.find(f)] *)
Fixpoint find {A} (f : A -> bool) (a : list A) : option A :=
  match a with
  | [] => None
  | x :: a' => if f x then Some x else find f a'
  end.

Definition to_lower_char (c : ascii) : ascii :=
  let n := nat_of_ascii c in
  if ((65 <=? n) && (n <=? 90))%nat then ascii_of_nat (n + 32) else c.

(** [s.toLowerCase()] on ASCII text. *)
Fixpoint toLowerCase (s : string) : string :=
  match s with
  | EmptyString => EmptyString
  | String c s' => String (to_lower_char c) (toLowerCase s')
  end.

(** [s.endsWith(t)] *)
Definition endsWith (s t : string) : bool :=
  let n := String.length s in
  let k := String.length t in
  if (k <=? n)%nat then String.eqb (String.substring (n - k) k s) t else false.

End JS.

(** ** The page set handlers of [App] *)

(** [movePage]: the guard looks at [targetIndex] only; the destructuring
    assignment reads both elements first, then writes [newPages[index]] and
    [newPages[targetIndex]] in that order. *)
Definition movePage (index : Z) (dir : direction) (st : AppState) : AppState :=
  let newPages := allPages st in
  let targetIndex := match dir with left => index - 1 | right => index + 1 end in
  if (targetIndex <? 0) || (targetIndex >=? Z.of_nat (length newPages)) then st
  else
    let fromTarget := JS.get newPages targetIndex in
    let fromIndex := JS.get newPages index in
    let newPages := JS.set newPages index fromTarget in
    let newPages := JS.set newPages targetIndex fromIndex in
    setAllPages (fun _ => newPages) st.

(** [removePage]: [prev.filter((_, i) => i !== index)]. *)
Definition removePage (index : Z) (st : AppState) : AppState :=
  setAllPages (JS.filter (fun _ i => negb (Z.of_nat i =? index))) st.

(** [clearAll]: [confirmed] is the answer to the [confirm] dialog. *)
Definition clearAll (confirmed : bool) (st : AppState) : AppState :=
  if confirmed then setAllPages (fun _ => []) (setFiles (fun _ => []) st)
  else st.

(** ** What the rendered page offers *)

(** The cards come from [allPages.map((page, index) => ...)]: one card for
    each index of the array. *)
Definition cardShown (st : AppState) (index : nat) : bool :=
  (index <? length (allPages st))%nat.

(** [disabled={index === 0}] of the left arrow. *)
Definition leftDisabled (index : nat) : bool := (index =? 0)%nat.

(** [disabled={index === allPages.length - 1}] of the right arrow. *)
Definition rightDisabled (st : AppState) (index : nat) : bool :=
  Z.of_nat index =? Z.of_nat (length (allPages st)) - 1.

(** [allPages.length > 0 && ...] around the export button, which is
    [disabled={isLoading}]. *)
Definition exportOffered (st : AppState) : bool :=
  (0 <? length (allPages st))%nat && negb (isLoading st).

(** [allPages.length === 0 ? upload prompt : workspace]: the workspace holds
    the cards and the "Clear All" button. *)
Definition workspaceShown (st : AppState) : bool :=
  negb (length (allPages st) =? 0)%nat.

(** ** Exceptions, events and the monad of the asynchronous code *)

(** What the code throws or lets through: a rejected [getDocument] or
    [PDFDocument.load] ([DecodeError]), a rejected [getPage] or [render]
    ([RenderError]), a property read on [undefined] ([TypeError]),
    [new Error("Source file missing")] ([MissingSource]), a page index that
    [copyPages] does not find ([CopyError]) and a rejected [save]
    ([SerializeError]). *)
Inductive error :=
  | DecodeError
  | RenderError
  | TypeError
  | MissingSource
  | CopyError
  | SerializeError.

Inductive outcome (A : Type) :=
  | Ok (a : A)
  | Raised (e : error).
Arguments Ok {A} a.
Arguments Raised {A} e.

Inductive event :=
  | GetDocument (file : File.t)        (* pdfjsLib.getDocument on the bytes of file *)
  | PDFDocumentLoad (file : File.t)    (* PDFDocument.load on the bytes of file *)
  | ConsoleError (msg : string)
  | Alert (msg : string)
  | Download (fileName : string) (bytes : string).

(** A computation emits events and ends in a value or an exception. *)
Definition M (A : Type) : Type := (list event * outcome A)%type.

Definition ret {A} (a : A) : M A := ([], Ok a).

Definition throw {A} (e : error) : M A := ([], Raised e).

Definition emit (ev : event) : M unit := ([ev], Ok tt).

Definition bind {A B} (m : M A) (k : A -> M B) : M B :=
  match m with
  | (log, Ok a) => let '(log', r) := k a in (log ++ log', r)
  | (log, Raised e) => (log, Raised e)
  end.

(** [try { m } catch (e) { h e }] *)
Definition try_catch {A} (m : M A) (h : error -> M A) : M A :=
  match m with
  | (log, Ok a) => (log, Ok a)
  | (log, Raised e) => let '(log', r) := h e in (log ++ log', r)
  end.

(** An [await] on a promise of the environment. *)
Definition await {A} (e : error) (o : option A) : M A :=
  match o with
  | Some a => ret a
  | None => throw e
  end.

Declare Scope m_scope.
Delimit Scope m_scope with m.
Notation "'let!' x ':=' m 'in' k" := (bind m (fun x => k))
  (at level 10, x pattern, m at level 100, k at level 200) : m_scope.
Notation "'run' m 'in' k" := (bind m (fun _ => k))
  (at level 10, m at level 100, k at level 200) : m_scope.
Open Scope m_scope.

(** ** [src/services/pdfService.ts] *)

(** pdf.js: a page proxy, of which the code uses [render] into the canvas
    followed by [canvas.toDataURL]: the data URL, or a rejection. *)
Record PDFPageProxy := mkPageProxy {
  render : option string
}.

Record PDFDocumentProxy := mkDocumentProxy {
  numPages : nat;
  getPage : nat -> option PDFPageProxy
}.

Record Previews := mkPreviews {
  pageCount : nat;
  previews : list string
}.

(** An entry of the array given to [mergeAndDownloadPdf]. *)
Record item := mkItem {
  sourceFile : File.t;
  pageIndex : nat
}.

Section Services.

(** [pdfjsLib.getDocument({data}).promise] *)
Variable getDocument : string -> option PDFDocumentProxy.

(** Whether [canvas.getContext('2d')] gives a context to the canvas
    created for page [i] of a file. *)
Variable getContext : File.t -> nat -> bool.

(** pdf-lib: [PDFDocument.load(bytes)], a loaded document being the list
    of its pages' contents, and [mergedPdf.save()]. *)
Variable PDFDocument_load : string -> option (list string).
Variable save : list string -> option string.

(** The body of [for (let i = 1; i <= pageCount; i++)], over the page
    numbers that remain. *)
Fixpoint renderPages (file : File.t) (pdf : PDFDocumentProxy)
    (nums : list nat) (previews : list string) : M (list string) :=
  match nums with
  | [] => ret previews
  | i :: nums' =>
      let! page := await RenderError (getPage pdf i) in
      if getContext file i then
        let! url := await RenderError (render page) in
        renderPages file pdf nums' (previews ++ [url])
      else renderPages file pdf nums' previews
  end.

Definition loadPdfAndGetPreviews (file : File.t) : M Previews :=
  try_catch
    (let arrayBuffer := File.data file in
     run emit (GetDocument file) in
     let! pdf := await DecodeError (getDocument arrayBuffer) in
     let pageCount := numPages pdf in
     let! previews := renderPages file pdf (seq 1 pageCount) [] in
     ret (mkPreviews pageCount previews))
    (fun e =>
       run emit (ConsoleError "PDF Preview Generation Error:") in
       throw e).

(** [`${item.sourceFile.name}-${item.sourceFile.size}`] *)
Definition fileKey (f : File.t) : string :=
  File.name f +:+ "-" +:+ pretty (File.size f).

(** The body of [for (const item of pages)], with the merged document and
    the cache it updates. [copyPages] raises on a page index the source
    document does not have. *)
Fixpoint mergePages (pages : list item) (mergedPdf : list string)
    (sourcePdfCache : gmap string (list string))
    : M (list string * gmap string (list string)) :=
  match pages with
  | [] => ret (mergedPdf, sourcePdfCache)
  | item :: pages' =>
      let fileKey := fileKey (sourceFile item) in
      let! (sourceDoc, sourcePdfCache) :=
        match sourcePdfCache !! fileKey with
        | Some sourceDoc => ret (sourceDoc, sourcePdfCache)
        | None =>
            let bytes := File.data (sourceFile item) in
            run emit (PDFDocumentLoad (sourceFile item)) in
            let! sourceDoc := await DecodeError (PDFDocument_load bytes) in
            ret (sourceDoc, <[fileKey := sourceDoc]> sourcePdfCache)
        end in
      let! copiedPage := await CopyError (sourceDoc !! pageIndex item) in
      mergePages pages' (mergedPdf ++ [copiedPage]) sourcePdfCache
  end.

(** The download takes place at once; the later [revokeObjectURL] has no
    effect on the model. *)
Definition mergeAndDownloadPdf (pages : list item) (fileName : string) : M unit :=
  let! (mergedPdf, _) := mergePages pages [] ∅ in
  let! pdfBytes := await SerializeError (save mergedPdf) in
  emit (Download
          (if JS.endsWith (JS.toLowerCase fileName) ".pdf" then fileName
           else fileName +:+ ".pdf")
          pdfBytes).

(** ** The upload and export handlers of [App] *)

(** The pages pushed by [previews.forEach((previewUrl, index) => ...)]. *)
Definition pagesOf (fileId : string) (file : File.t) (previews : list string)
    : list PDFPage.t :=
  imap (fun index previewUrl =>
          PDFPage.mk (fileId +:+ "-" +:+ pretty index) fileId index previewUrl
            (File.name file))
       previews.

(** The body of [for (const file of selectedFiles)]. [fileIds k] is the
    string that [Math.random().toString(36).substr(2, 9)] yields at its
    [k]-th evaluation within the batch. *)
Fixpoint uploadLoop (fileIds : nat -> string) (k : nat)
    (selectedFiles : list File.t)
    (newFiles : list PDFFile.t) (newPages : list PDFPage.t)
    : M (list PDFFile.t * list PDFPage.t) :=
  match selectedFiles with
  | [] => ret (newFiles, newPages)
  | file :: rest =>
      if negb (String.eqb (File.type file) "application/pdf") then
        uploadLoop fileIds k rest newFiles newPages
      else
        let! r := loadPdfAndGetPreviews file in
        let fileId := fileIds k in
        uploadLoop fileIds (S k) rest
          (newFiles ++ [PDFFile.mk fileId (File.name file) file (pageCount r)])
          (newPages ++ pagesOf fileId file (previews r))
  end.

(** [handleFileUpload]: the state after the handler and the events of the
    run. The [try] encloses the whole loop and both state updates; of the
    [finally] block the state keeps [setIsLoading(false)], the reset of the
    file input having no part in it. *)
Definition handleFileUpload (fileIds : nat -> string)
    (selectedFiles : list File.t) (st : AppState) : AppState * list event :=
  match selectedFiles with
  | [] => (st, [])
  | _ =>
      let st := setIsLoading true st in
      match uploadLoop fileIds 0 selectedFiles [] [] with
      | (log, Ok (newFiles, newPages)) =>
          let st := setFiles (fun prev => prev ++ newFiles) st in
          let st := setAllPages (fun prev => prev ++ pageSet newPages) st in
          (setIsLoading false st, log)
      | (log, Raised _) =>
          (setIsLoading false st,
           log ++ [ConsoleError "Error processing PDFs:";
                   Alert "There was an error processing your PDF files."])
      end
  end.

(** The callback of [allPages.map] in [handleDownload]. On an [undefined]
    element the read of [page.sourceFileId] takes place inside the
    callback of [find], which runs only when [files] has an element. *)
Definition toProcess (files : list PDFFile.t) (s : slot) : M item :=
  match s with
  | undefined =>
      match files with
      | [] => throw MissingSource
      | _ :: _ => throw TypeError
      end
  | Page page =>
      match JS.find (fun f => String.eqb (PDFFile.id f) (PDFPage.sourceFileId page))
              files with
      | None => throw MissingSource
      | Some sourceFile => ret (mkItem (PDFFile.file sourceFile) (PDFPage.pageIndex page))
      end
  end.

(** [a.map(f)] with a callback that may throw. *)
Fixpoint arrayMap {A B} (f : A -> M B) (a : list A) : M (list B) :=
  match a with
  | [] => ret []
  | x :: a' =>
      let! y := f x in
      let! ys := arrayMap f a' in
      ret (y :: ys)
  end.

Definition handleDownload (st : AppState) : AppState * list event :=
  match allPages st with
  | [] => (st, [])
  | _ =>
      let st := setIsLoading true st in
      match
        (let! pagesToProcess := arrayMap (toProcess (files st)) (allPages st) in
         mergeAndDownloadPdf pagesToProcess "merged_document.pdf")
      with
      | (log, Ok _) => (setIsLoading false st, log)
      | (log, Raised _) =>
          (setIsLoading false st,
           log ++ [ConsoleError "Export error:"; Alert "Failed to export PDF."])
      end
  end.

(** ** The application as a transition system *)

(** A handler that has set [isLoading] and is waiting on its promises:
    what is left of it once they settle. The loop of [handleFileUpload]
    reads nothing of the state, so the upload carries the result of its
    loop; the export only has its [finally] block left. *)
Inductive completion :=
  | UploadSettles (r : outcome (list PDFFile.t * list PDFPage.t))
  | ExportSettles.

(** The rest of a handler, run on the state of the moment: the updates
    [setFiles(prev => ...)] and [setAllPages(prev => ...)] of a loop that
    returned, and [setIsLoading(false)] of the [finally] block. *)
Definition settle (c : completion) (st : AppState) : AppState :=
  match c with
  | UploadSettles (Ok (newFiles, newPages)) =>
      let st := setFiles (fun prev => prev ++ newFiles) st in
      let st := setAllPages (fun prev => prev ++ pageSet newPages) st in
      setIsLoading false st
  | UploadSettles (Raised _) => setIsLoading false st
  | ExportSettles => setIsLoading false st
  end.

(** A session: the state that is rendered, and the handlers in flight. *)
Record Session := mkSession {
  view : AppState;
  inFlight : list completion
}.

(** What can happen to a session: the user acts on the rendered page, or
    the [k]-th handler in flight resumes. *)
Inductive action :=
  | ChooseFiles (fileIds : nat -> string) (selectedFiles : list File.t)
  | ClickLeft (index : nat)
  | ClickRight (index : nat)
  | ClickRemove (index : nat)
  | ClickClearAll (confirmed : bool)
  | ClickExport
  | Settle (k : nat).

(** Whether the session offers the action. An arrow or a trash icon
    belongs to a card, and a disabled button takes no click. Of the
    buttons only "Add PDFs" and the export button are [disabled={isLoading}];
    the file input, the cards and "Clear All" stay in the page while a
    handler is in flight (the overlay is drawn over them, it does not
    disable them), so they are offered then as well. *)
Definition offered (s : Session) (a : action) : bool :=
  match a with
  | ChooseFiles _ _ => true
  | ClickLeft index => cardShown (view s) index && negb (leftDisabled index)
  | ClickRight index =>
      cardShown (view s) index && negb (rightDisabled (view s) index)
  | ClickRemove index => cardShown (view s) index
  | ClickClearAll _ => workspaceShown (view s)
  | ClickExport => exportOffered (view s)
  | Settle k => (k <? length (inFlight s))%nat
  end.

(** One transition. [handleFileUpload] and [handleDownload] return at once
    on an empty selection or page set; otherwise they set [isLoading] and
    wait. The handlers of the page set run to their end. *)
Definition step (a : action) (s : Session) : Session :=
  match a with
  | ChooseFiles fileIds selectedFiles =>
      match selectedFiles with
      | [] => s
      | _ =>
          mkSession (setIsLoading true (view s))
            (inFlight s
               ++ [UploadSettles (uploadLoop fileIds 0 selectedFiles [] []).2])
      end
  | ClickLeft index =>
      mkSession (movePage (Z.of_nat index) left (view s)) (inFlight s)
  | ClickRight index =>
      mkSession (movePage (Z.of_nat index) right (view s)) (inFlight s)
  | ClickRemove index =>
      mkSession (removePage (Z.of_nat index) (view s)) (inFlight s)
  | ClickClearAll confirmed =>
      mkSession (clearAll confirmed (view s)) (inFlight s)
  | ClickExport =>
      match allPages (view s) with
      | [] => s
      | _ => mkSession (setIsLoading true (view s)) (inFlight s ++ [ExportSettles])
      end
  | Settle k =>
      match inFlight s !! k with
      | Some c => mkSession (settle c (view s)) (delete k (inFlight s))
      | None => s
      end
  end.

(** The sessions that can come about: [useState] starts from empty arrays
    with nothing in flight. *)
Inductive reachable : Session -> Prop :=
  | reachable_init : reachable (mkSession (mkState [] [] false) [])
  | reachable_step s a :
      reachable s -> offered s a = true -> reachable (step a s).

End Services.

(** ** Vocabulary of the properties *)

#[global] Instance File_eq_dec : EqDecision File.t.
Proof. solve_decision. Defined.

#[global] Instance event_eq_dec : EqDecision event.
Proof. solve_decision. Defined.

(** [targetIndex] of [movePage]. *)
Definition neighbour (index : Z) (dir : direction) : Z :=
  match dir with left => index - 1 | right => index + 1 end.

Definition inBounds (l : list slot) (k : Z) : Prop :=
  0 <= k < Z.of_nat (length l).

(** [l'] is [l] with the entries at positions [i] and [j] exchanged and
    nothing else touched. *)
Definition swapped (l l' : list slot) (i j : Z) : Prop :=
  length l' = length l /\
  JS.get l' i = JS.get l j /\
  JS.get l' j = JS.get l i /\
  forall k, k <> i -> k <> j -> JS.get l' k = JS.get l k.

(** [l'] is [l] with one pair of adjacent entries transposed. *)
Definition transposed (l l' : list slot) : Prop :=
  exists pre x y post,
    l = pre ++ x :: y :: post /\ l' = pre ++ y :: x :: post.

(** The spec's [remove(index)] of section 4.3, in its own words: the error
    [IndexOutOfRange] at [index >= length], otherwise the sequence without
    the entry at [index]. *)
Inductive removal :=
  | Removed (l : list slot)
  | IndexOutOfRange.

Definition PageSet_remove_spec (index : nat) (l : list slot) : removal :=
  if (length l <=? index)%nat then IndexOutOfRange
  else Removed (take index l ++ drop (S index) l).

(** How often an event occurs in a log. *)
Definition occurrences (ev : event) (log : list event) : nat :=
  length (filter (fun e => e = ev) log).

(** The registry entries that hold the file [f]. *)
Definition registered (f : File.t) (fs : list PDFFile.t) : list PDFFile.t :=
  filter (fun e => PDFFile.file e = f) fs.

(** The source files a list of items refers to. *)
Definition referenced (pages : list item) : list File.t := sourceFile <$> pages.

(** The page an item designates: page [pageIndex] of its own source file,
    as pdf-lib decodes it. *)
Definition pageOf (PDFDocument_load : string -> option (list string))
    (it : item) : option string :=
  match PDFDocument_load (File.data (sourceFile it)) with
  | Some doc => doc !! pageIndex it
  | None => None
  end.

(** A file that [loadPdfAndGetPreviews] can load: it decodes and no page
    rejects. *)
Definition loadable (getDocument : string -> option PDFDocumentProxy)
    (f : File.t) : Prop :=
  exists pdf, getDocument (File.data f) = Some pdf /\
    forall i, (1 <= i <= numPages pdf)%nat ->
      exists page url, getPage pdf i = Some page /\ render page = Some url.

(** The page whose render is rejected: [getPage] delivers it, the canvas has
    a context, and [render] rejects. *)
Definition renderFails (getDocument : string -> option PDFDocumentProxy)
    (getContext : File.t -> nat -> bool) (f : File.t) (i : nat) : Prop :=
  exists pdf page, getDocument (File.data f) = Some pdf /\
    (1 <= i <= numPages pdf)%nat /\
    getPage pdf i = Some page /\ getContext f i = true /\ render page = None.

(** The type test of the upload loop. *)
Definition isPdf (f : File.t) : bool :=
  String.eqb (File.type f) "application/pdf".

(** A page backed by the registry: some entry carries the page's source
    id and name and has more pages than the page's index. *)
Definition backed (fs : list PDFFile.t) (p : PDFPage.t) : Prop :=
  exists f, f ∈ fs /\
    PDFFile.id f = PDFPage.sourceFileId p /\
    (PDFPage.pageIndex p < PDFFile.pageCount f)%nat /\
    PDFPage.originalFileName p = PDFFile.name f.

(** The invariant of the state: the array holds page objects only, and
    each of them is backed by the registry. *)
Definition wellFormed (st : AppState) : Prop :=
  isLoading st = false /\
  forall s, s ∈ allPages st -> exists p, s = Page p /\ backed (files st) p.

(** The part of the invariant that does not speak of [isLoading]. *)
Definition pagesBacked (st : AppState) : Prop :=
  forall s, s ∈ allPages st -> exists p, s = Page p /\ backed (files st) p.

(** A waiting upload brings pages that its own entries back. *)
Definition completionBacked (c : completion) : Prop :=
  match c with
  | UploadSettles (Ok (newFiles, newPages)) =>
      forall p, p ∈ newPages -> backed newFiles p
  | _ => True
  end.

(** The invariant of a session: the pages are backed, also those that the
    uploads in flight will bring, and nothing is shown as loading once
    nothing is in flight. *)
Definition sessionInvariant (s : Session) : Prop :=
  pagesBacked (view s) /\
  Forall completionBacked (inFlight s) /\
  (inFlight s = [] -> isLoading (view s) = false).

(** What a page renders to: [getPage] followed by [render]. *)
Definition pageUrl (pdf : PDFDocumentProxy) (i : nat) : option string :=
  match getPage pdf i with
  | Some page => render page
  | None => None
  end.

(** The files that the events of a log decode with pdf-lib, in order. *)
Definition loads (log : list event) : list File.t :=
  omap (fun ev => match ev with PDFDocumentLoad f => Some f | _ => None end) log.

Definition isDownload (ev : event) : bool :=
  match ev with Download _ _ => true | _ => false end.

Definition isAlert (ev : event) : bool :=
  match ev with Alert _ => true | _ => false end.

(** A string without the character [-]. *)
Fixpoint dashFree (s : string) : bool :=
  match s with
  | EmptyString => true
  | String c s' => negb (Ascii.eqb c "-") && dashFree s'
  end.

(** The items of all pages of a file with [n] pages, in page order. *)
Definition allPagesOf (f : File.t) (n : nat) : list item :=
  mkItem f <$> seq 0 n.

(** ** Sample data *)

Module Sample.

Definition page (src : string) (i : nat) : PDFPage.t :=
  PDFPage.mk (src +:+ "-" +:+ pretty i) src i ("data:" +:+ src +:+ pretty i) (src +:+ ".pdf").

Definition a0 := page "a" 0.
Definition a1 := page "a" 1.
Definition a2 := page "a" 2.
Definition b0 := page "b" 0.

Definition pdf (name : string) (size : N) (data : string) : File.t :=
  File.mk name size "application/pdf" data.

Definition fileA := pdf "a.pdf" 3 "AAA".
Definition fileB := pdf "b.pdf" 2 "BB".
(** Other bytes under the name and size of [fileA]. *)
Definition fileTwin := pdf "a.pdf" 3 "ZZZ".
(** No PDF container at all. *)
Definition fileJunk := pdf "x.pdf" 4 "junk".
(** The second page does not render. *)
Definition fileTorn := pdf "torn.pdf" 4 "TORN".
(** The canvas of the second page gets no context. *)
Definition fileNoCtx := pdf "noctx.pdf" 2 "BB".

(** A pdf.js document from what each page renders to. *)
Definition proxy (pages : list (option string)) : PDFDocumentProxy :=
  mkDocumentProxy (length pages)
    (fun i => match i with
              | O => None
              | S j => mkPageProxy <$> pages !! j
              end).

Definition getDocument (data : string) : option PDFDocumentProxy :=
  if String.eqb data "AAA" then Some (proxy [Some "A1"; Some "A2"; Some "A3"])
  else if String.eqb data "BB" then Some (proxy [Some "B1"; Some "B2"])
  else if String.eqb data "ZZZ" then Some (proxy [Some "Z1"; Some "Z2"; Some "Z3"])
  else if String.eqb data "TORN" then Some (proxy [Some "T1"; None])
  else None.

Definition getContext (f : File.t) (i : nat) : bool :=
  negb (String.eqb (File.name f) "noctx.pdf" && (i =? 2)%nat).

Definition PDFDocument_load (data : string) : option (list string) :=
  if String.eqb data "AAA" then Some ["A-one"; "A-two"; "A-three"]
  else if String.eqb data "BB" then Some ["B-one"; "B-two"]
  else if String.eqb data "ZZZ" then Some ["Z-one"; "Z-two"; "Z-three"]
  else None.

Definition save (pages : list string) : option string :=
  Some (String.concat "|" pages).

Definition fileIds (k : nat) : string := "id" +:+ pretty k.

(** The draws of a later batch. *)
Definition laterIds (k : nat) : string := "jd" +:+ pretty k.

Definition empty : AppState := mkState [] [] false.

Definition twoPages : AppState := mkState [] (pageSet [a0; a1]) false.

Definition threePages : AppState := mkState [] (pageSet [a0; a1; a2]) false.

(** The state after a first upload of [fileB]. *)
Definition afterB : AppState :=
  (handleFileUpload getDocument getContext fileIds [fileB] empty).1.

(** Page 1 of [a.pdf] twice, then page 2 of [b.pdf]. *)
Definition reuse : list item :=
  [mkItem fileA 0; mkItem fileA 0; mkItem fileB 1].

(** The first pages of two different files of one name and size. *)
Definition collision : list item :=
  [mkItem fileA 0; mkItem fileTwin 0].

(** A page set whose last page refers to a source that is not registered. *)
Definition dangling : AppState :=
  setAllPages (fun prev => prev ++ pageSet [a0]) afterB.

End Sample.

(** * The page set: [movePage] and [removePage] *)

Section PageSetFacts.

Implicit Types (l pre post : list slot) (x y v : slot) (st : AppState).

Lemma get_middle pre x post :
  JS.get (pre ++ x :: post) (Z.of_nat (length pre)) = x.
Proof.
  unfold JS.get.
  destruct (Z.ltb_spec (Z.of_nat (length pre)) 0) as [Hneg|_]; [lia|].
  by rewrite Nat2Z.id, list_lookup_middle.
Qed.

Lemma get_middle_next pre x y post :
  JS.get (pre ++ x :: y :: post) (Z.of_nat (length pre) + 1) = y.
Proof.
  replace (Z.of_nat (length pre) + 1) with (Z.of_nat (length (pre ++ [x])))
    by (rewrite length_app; simpl; lia).
  rewrite (cons_middle x pre), app_assoc. apply get_middle.
Qed.

Lemma set_middle pre x post v :
  JS.set (pre ++ x :: post) (Z.of_nat (length pre)) v = pre ++ v :: post.
Proof.
  unfold JS.set.
  destruct (Z.ltb_spec (Z.of_nat (length pre)) 0) as [Hneg|_]; [lia|].
  rewrite Nat2Z.id.
  destruct (Nat.ltb_spec (length pre) (length (pre ++ x :: post))) as [_|Hge].
  - rewrite insert_app_r_alt by lia. by rewrite Nat.sub_diag.
  - rewrite length_app in Hge. simpl in Hge. lia.
Qed.

Lemma set_middle_next pre x y post v :
  JS.set (pre ++ x :: y :: post) (Z.of_nat (length pre) + 1) v
  = pre ++ x :: v :: post.
Proof.
  replace (Z.of_nat (length pre) + 1) with (Z.of_nat (length (pre ++ [x])))
    by (rewrite length_app; simpl; lia).
  rewrite (cons_middle x pre), app_assoc, set_middle.
  by rewrite <- app_assoc.
Qed.

(** A list with two entries from position [n] on. *)
Lemma two_from l (n : nat) :
  (S n < length l)%nat ->
  exists pre x y post, l = pre ++ x :: y :: post /\ length pre = n.
Proof.
  intros Hn.
  destruct (lookup_lt_is_Some_2 l n) as [x Hx]; [lia|].
  destruct (lookup_lt_is_Some_2 l (S n)) as [y Hy]; [lia|].
  exists (take n l), x, y, (drop (S (S n)) l). split.
  - rewrite <- (take_drop_middle l n x Hx) at 1. f_equal. f_equal.
    rewrite <- (take_drop_middle (drop (S n) l) 0 y).
    + simpl. rewrite drop_drop. f_equal. f_equal. lia.
    + rewrite lookup_drop. by replace (S n + 0)%nat with (S n) by lia.
  - rewrite length_take. lia.
Qed.

Lemma movePage_outside st index dir :
  ~ inBounds (allPages st) (neighbour index dir) -> movePage index dir st = st.
Proof.
  unfold inBounds, neighbour, movePage. intros Hout.
  destruct (Z.ltb_spec (match dir with left => index - 1 | right => index + 1 end) 0);
    [done|].
  destruct (Z.geb_spec (match dir with left => index - 1 | right => index + 1 end)
              (Z.of_nat (length (allPages st)))); [done|].
  exfalso. apply Hout. lia.
Qed.

Lemma movePage_inside st index dir :
  inBounds (allPages st) (neighbour index dir) ->
  movePage index dir st =
  setAllPages (fun _ =>
    JS.set (JS.set (allPages st) index (JS.get (allPages st) (neighbour index dir)))
           (neighbour index dir) (JS.get (allPages st) index)) st.
Proof.
  unfold inBounds, neighbour, movePage. intros Hin.
  destruct (Z.ltb_spec (match dir with left => index - 1 | right => index + 1 end) 0);
    [lia|].
  destruct (Z.geb_spec (match dir with left => index - 1 | right => index + 1 end)
              (Z.of_nat (length (allPages st)))); [lia|].
  done.
Qed.

(** Moving the first of two neighbours to the right. *)
Lemma movePage_right_middle st pre x y post :
  allPages st = pre ++ x :: y :: post ->
  movePage (Z.of_nat (length pre)) right st
  = setAllPages (fun _ => pre ++ y :: x :: post) st.
Proof.
  intros Hl. rewrite movePage_inside.
  - unfold neighbour. rewrite Hl.
    by rewrite get_middle_next, get_middle, set_middle, set_middle_next.
  - unfold inBounds, neighbour. rewrite Hl, length_app. simpl. lia.
Qed.

(** Moving the second of two neighbours to the left. *)
Lemma movePage_left_middle st pre x y post :
  allPages st = pre ++ x :: y :: post ->
  movePage (Z.of_nat (length pre) + 1) left st
  = setAllPages (fun _ => pre ++ y :: x :: post) st.
Proof.
  intros Hl. rewrite movePage_inside.
  - unfold neighbour. rewrite Hl.
    replace (Z.of_nat (length pre) + 1 - 1) with (Z.of_nat (length pre)) by lia.
    by rewrite get_middle_next, get_middle, set_middle_next, set_middle.
  - unfold inBounds, neighbour. rewrite Hl, length_app. simpl. lia.
Qed.

(** With [index] and its neighbour both in bounds the array splits around
    the lower of the two, and [movePage] exchanges the pair. *)
Lemma movePage_exchange st index dir :
  inBounds (allPages st) index ->
  inBounds (allPages st) (neighbour index dir) ->
  exists pre x y post,
    allPages st = pre ++ x :: y :: post /\
    Z.of_nat (length pre) = Z.min index (neighbour index dir) /\
    movePage index dir st = setAllPages (fun _ => pre ++ y :: x :: post) st.
Proof.
  unfold inBounds. intros Hi Ht. destruct dir; simpl in *.
  - destruct (two_from (allPages st) (Z.to_nat (index - 1)))
      as (pre & x & y & post & Hl & Hpre); [lia|].
    exists pre, x, y, post. split; [done|]. split; [lia|].
    replace index with (Z.of_nat (length pre) + 1) by lia.
    by apply movePage_left_middle.
  - destruct (two_from (allPages st) (Z.to_nat index))
      as (pre & x & y & post & Hl & Hpre); [lia|].
    exists pre, x, y, post. split; [done|]. split; [lia|].
    replace index with (Z.of_nat (length pre)) by lia.
    by apply movePage_right_middle.
Qed.

Lemma setAllPages_same st : setAllPages (fun _ => allPages st) st = st.
Proof. by destruct st. Qed.

Lemma swapped_pair pre x y post :
  swapped (pre ++ x :: y :: post) (pre ++ y :: x :: post)
    (Z.of_nat (length pre)) (Z.of_nat (length pre) + 1).
Proof.
  unfold swapped. rewrite !get_middle, !get_middle_next, !length_app. simpl.
  repeat split; [done..|].
  intros k Hk1 Hk2. unfold JS.get.
  destruct (Z.ltb_spec k 0) as [|Hk]; [done|].
  destruct (decide (Z.to_nat k < length pre)%nat) as [Hlt|Hge].
  - by rewrite !lookup_app_l by done.
  - rewrite !lookup_app_r by lia.
    destruct (Z.to_nat k - length pre)%nat as [|[|m]] eqn:Hm; [lia|lia|done].
Qed.

Lemma swapped_sym l l' i j : swapped l l' i j -> swapped l l' j i.
Proof. unfold swapped. intros (Hlen & Hi & Hj & Hk). repeat split; auto. Qed.

End PageSetFacts.

Lemma filter_from_remove (l : list slot) (k : nat) (index : Z) :
  JS.filter_from k (fun _ i => negb (Z.of_nat i =? index)) l =
  if decide (Z.of_nat k <= index < Z.of_nat k + Z.of_nat (length l))
  then take (Z.to_nat index - k) l ++ drop (S (Z.to_nat index - k)) l
  else l.
Proof.
  revert k. induction l as [|x l IH]; intros k.
  - simpl. case_decide; [lia|done].
  - cbn [JS.filter_from]. rewrite IH. cbn [length].
    destruct (Z.eqb_spec (Z.of_nat k) index) as [Heq|Hne]; cbn [negb].
    + subst index. rewrite Nat2Z.id, Nat.sub_diag.
      rewrite decide_False by lia. rewrite decide_True by lia.
      simpl. by rewrite drop_0.
    + case_decide as Hin.
      * rewrite decide_True by lia.
        replace (Z.to_nat index - k)%nat with (S (Z.to_nat index - S k)) by lia.
        done.
      * by rewrite decide_False by lia.
Qed.

(** C3, as the code has it: [removePage] never fails. At an index of the
    array it deletes exactly that entry, the later entries moving one place
    to the left, so that the length drops by one and the other entries keep
    their order; at any other index (at or past the length, or negative) it
    leaves the state as it is. The registry is not touched. *)
Theorem removePage_deletes (st : AppState) (index : Z) :
  files (removePage index st) = files st /\
  (inBounds (allPages st) index ->
     allPages (removePage index st)
     = take (Z.to_nat index) (allPages st) ++ drop (S (Z.to_nat index)) (allPages st) /\
     S (length (allPages (removePage index st))) = length (allPages st)) /\
  (~ inBounds (allPages st) index -> removePage index st = st).
Proof.
  unfold inBounds, removePage, setAllPages, JS.filter. simpl.
  rewrite filter_from_remove, Nat.sub_0_r. simpl.
  split; [done|]. split.
  - intros Hin. rewrite decide_True by lia. split; [done|].
    rewrite length_app, length_take, length_drop. lia.
  - intros Hout. rewrite decide_False by lia. by destruct st.
Qed.

Lemma removePage_deletes_witness :
  allPages (removePage 1 Sample.threePages) = pageSet [Sample.a0; Sample.a2] /\
  removePage 3 Sample.threePages = Sample.threePages.
Proof.
  split.
  - apply (proj1 (proj2 (removePage_deletes Sample.threePages 1))).
    unfold inBounds. simpl. lia.
  - apply (proj2 (proj2 (removePage_deletes Sample.threePages 3))).
    unfold inBounds. simpl. lia.
Defined.

(** C3 as stated does not hold: at [index = length] the spec's [remove]
    fails with [IndexOutOfRange], while [removePage] returns normally and
    leaves the two pages in place. *)
Lemma removePage_past_end_no_error :
  PageSet_remove_spec 2 (allPages Sample.twoPages) = IndexOutOfRange /\
  removePage 2 Sample.twoPages = Sample.twoPages /\
  Removed (allPages (removePage 2 Sample.twoPages))
  <> PageSet_remove_spec 2 (allPages Sample.twoPages).
Proof.
  split; [reflexivity|]. split; [reflexivity|].
  vm_compute. discriminate.
Qed.

(** C8: for every page set and every index of it, [movePage] exchanges
    the entry at [index] with its neighbour at [index - 1] (left) or
    [index + 1] (right) and touches nothing else; when the neighbour
    position is out of bounds it is a no-op that leaves the state as it is
    and raises nothing (the no-op holds at any index whatever). *)
Theorem movePage_swaps_or_skips (st : AppState) (index : Z) (dir : direction) :
  (~ inBounds (allPages st) (neighbour index dir) -> movePage index dir st = st) /\
  (inBounds (allPages st) index ->
   inBounds (allPages st) (neighbour index dir) ->
     files (movePage index dir st) = files st /\
     swapped (allPages st) (allPages (movePage index dir st))
       index (neighbour index dir)).
Proof.
  split; [apply movePage_outside|].
  intros Hi Ht.
  destruct (movePage_exchange st index dir Hi Ht)
    as (pre & x & y & post & Hl & Hpre & ->).
  split; [done|]. simpl. rewrite Hl.
  destruct dir; simpl in *.
  - replace index with (Z.of_nat (length pre) + 1) by lia.
    replace (Z.of_nat (length pre) + 1 - 1) with (Z.of_nat (length pre)) by lia.
    apply swapped_sym, swapped_pair.
  - replace index with (Z.of_nat (length pre)) by lia.
    apply swapped_pair.
Qed.

Lemma movePage_swaps_or_skips_witness :
  movePage 0 left Sample.threePages = Sample.threePages /\
  swapped (allPages Sample.threePages)
    (allPages (movePage 1 right Sample.threePages)) 1 2.
Proof.
  split.
  - apply (proj1 (movePage_swaps_or_skips Sample.threePages 0 left)).
    unfold inBounds. simpl. lia.
  - apply (proj2 (movePage_swaps_or_skips Sample.threePages 1 right));
      unfold inBounds; simpl; lia.
Defined.

(** C9, as the code has it: [move(i, left)] followed by [move(i-1, right)]
    restores the state for every index other than 0 and the length (in
    particular whenever the entry at [i] has a left neighbour), and for
    every index when the page set is empty. *)
Theorem move_left_then_right (st : AppState) (i : Z) :
  allPages st = [] \/ (i <> 0 /\ i <> Z.of_nat (length (allPages st))) ->
  movePage (i - 1) right (movePage i left st) = st.
Proof.
  intros Hi.
  destruct (decide (inBounds (allPages st) (neighbour i left))) as [Hin|Hout].
  - assert (inBounds (allPages st) i) as Hi'.
    { unfold inBounds, neighbour in *.
      destruct Hi as [Hnil|[_ Hlen]]; [rewrite Hnil in Hin; simpl in Hin|]; lia. }
    destruct (movePage_exchange st i left Hi' Hin)
      as (pre & x & y & post & Hl & Hpre & ->).
    simpl in Hpre.
    replace (i - 1) with (Z.of_nat (length pre)) by lia.
    rewrite (movePage_right_middle _ pre y x post) by done.
    destruct st; simpl in *. by subst.
  - rewrite (movePage_outside st i left Hout).
    apply movePage_outside. unfold inBounds, neighbour in *.
    destruct Hi as [Hnil|[Hz _]]; [rewrite Hnil; simpl|]; lia.
Qed.

Lemma move_left_then_right_witness :
  movePage (1 - 1) right (movePage 1 left Sample.twoPages) = Sample.twoPages.
Proof.
  apply (move_left_then_right Sample.twoPages 1).
  right. simpl. lia.
Defined.

(** C9 as stated does not hold at [i = 0]: [move(0, left)] is a no-op, and
    [move(-1, right)] finds the neighbour position 0 in bounds and
    overwrites the first page by [undefined]. *)
Lemma move_left_then_right_at_zero :
  allPages (movePage (0 - 1) right (movePage 0 left Sample.twoPages))
  = [undefined; Page Sample.a1] /\
  movePage (0 - 1) right (movePage 0 left Sample.twoPages) <> Sample.twoPages.
Proof. split; [reflexivity|]. vm_compute. discriminate. Qed.

(** C10: for every page set, every index of it and every direction (and
    also at any index whose neighbour position is out of bounds),
    [movePage] yields a sequence of the same length with the same entries:
    the input itself, or the input with one pair of adjacent entries
    transposed. *)
Theorem movePage_rearranges (st : AppState) (index : Z) (dir : direction) :
  inBounds (allPages st) index \/ ~ inBounds (allPages st) (neighbour index dir) ->
  length (allPages (movePage index dir st)) = length (allPages st) /\
  allPages (movePage index dir st) ≡ₚ allPages st /\
  (allPages (movePage index dir st) = allPages st \/
   transposed (allPages st) (allPages (movePage index dir st))).
Proof.
  intros Hcase.
  destruct (decide (inBounds (allPages st) (neighbour index dir))) as [Hin|Hout].
  - destruct Hcase as [Hi|Hout]; [|done].
    destruct (movePage_exchange st index dir Hi Hin)
      as (pre & x & y & post & Hl & _ & ->).
    simpl. rewrite Hl. split; [|split].
    + rewrite !length_app. done.
    + apply Permutation_app_head, perm_swap.
    + right. by exists pre, x, y, post.
  - rewrite (movePage_outside st index dir Hout). auto.
Qed.

Lemma movePage_rearranges_witness :
  length (allPages (movePage 1 left Sample.threePages)) = 3%nat /\
  allPages (movePage 1 left Sample.threePages) ≡ₚ allPages Sample.threePages /\
  (allPages (movePage 1 left Sample.threePages) = allPages Sample.threePages \/
   transposed (allPages Sample.threePages)
     (allPages (movePage 1 left Sample.threePages))).
Proof.
  apply (movePage_rearranges Sample.threePages 1 left).
  left. unfold inBounds. simpl. lia.
Defined.

(** * The monad *)

#[global] Arguments bind : simpl never.
#[global] Arguments ret : simpl never.
#[global] Arguments throw : simpl never.
#[global] Arguments emit : simpl never.
#[global] Arguments await : simpl never.
#[global] Arguments try_catch : simpl never.

Lemma bind_ret {A B} (a : A) (k : A -> M B) : bind (ret a) k = k a.
Proof. unfold bind, ret. by destruct (k a). Qed.

Lemma bind_throw {A B} (e : error) (k : A -> M B) : bind (throw e) k = throw e.
Proof. reflexivity. Qed.

Lemma await_Some {A} (e : error) (a : A) : await e (Some a) = ret a.
Proof. reflexivity. Qed.

Lemma await_None {A} (e : error) : await e (@None A) = throw e.
Proof. reflexivity. Qed.

Lemma bind_ok {A B} (m : M A) (k : A -> M B) log a log' r :
  m = (log, Ok a) -> k a = (log', r) -> bind m k = (log ++ log', r).
Proof. intros -> Hk. unfold bind. by rewrite Hk. Qed.

Lemma bind_raised {A B} (m : M A) (k : A -> M B) log e :
  m = (log, Raised e) -> bind m k = (log, Raised e).
Proof. by intros ->. Qed.

Lemma bind_emit {B} (ev : event) (k : unit -> M B) :
  bind (emit ev) k = (ev :: (k tt).1, (k tt).2).
Proof. unfold bind, emit. by destruct (k tt). Qed.

Lemma bind_log {A B} (m : M A) (k : A -> M B) :
  (bind m k).1 = m.1 ++ match m.2 with Ok a => (k a).1 | Raised _ => [] end.
Proof.
  destruct m as [log [a|e]]; simpl.
  - unfold bind. by destruct (k a).
  - by rewrite app_nil_r.
Qed.

Lemma occurrences_cons ev e log :
  occurrences ev (e :: log)
  = ((if decide (e = ev) then 1 else 0) + occurrences ev log)%nat.
Proof. unfold occurrences. rewrite filter_cons. by case_decide. Qed.

Lemma occurrences_absent ev log : ev ∉ log -> occurrences ev log = 0%nat.
Proof.
  induction log as [|e log IH]; [done|].
  rewrite not_elem_of_cons, occurrences_cons. intros [Hne Hnot].
  rewrite decide_False by done. by rewrite IH.
Qed.

(** * The preview loader and the upload handler *)

Section Loader.

Variable getDocument : string -> option PDFDocumentProxy.
Variable getContext : File.t -> nat -> bool.


(** The loop emits nothing, and a rejection in it is a [RenderError]. *)
Lemma renderPages_silent file pdf nums acc :
  exists r, renderPages getContext file pdf nums acc = ([], r) /\
    (forall e, r = Raised e -> e = RenderError).
Proof.
  revert acc. induction nums as [|i nums IH]; intros acc; simpl.
  - eexists. split; [done|]. discriminate.
  - destruct (getPage pdf i) as [page|].
    2:{ rewrite await_None, bind_throw. eexists. split; [done|]. by intros e [= <-]. }
    rewrite await_Some, bind_ret. destruct (getContext file i); [|apply IH].
    destruct (render page) as [url|].
    + rewrite await_Some, bind_ret. apply IH.
    + rewrite await_None, bind_throw. eexists. split; [done|]. by intros e [= <-].
Qed.

(** Every page delivered, with a context and rendered: one preview per
    page number, in the order of the page numbers. *)
Lemma renderPages_all file pdf (url : nat -> string) nums acc :
  (forall i, i ∈ nums ->
     getContext file i = true /\
     exists page, getPage pdf i = Some page /\ render page = Some (url i)) ->
  renderPages getContext file pdf nums acc = ([], Ok (acc ++ (url <$> nums))).
Proof.
  revert acc. induction nums as [|i nums IH]; intros acc Hall; simpl.
  - by rewrite app_nil_r.
  - destruct (Hall i) as (Hctx & page & Hpage & Hurl); [left|].
    rewrite Hpage, await_Some, bind_ret, Hctx, Hurl, await_Some, bind_ret.
    rewrite IH, <- app_assoc; [done|].
    intros j Hj. apply Hall. by right.
Qed.

(** A page whose render is rejected makes the loop raise. *)
Lemma renderPages_rejects file pdf nums acc i page :
  i ∈ nums -> getPage pdf i = Some page -> getContext file i = true ->
  render page = None ->
  renderPages getContext file pdf nums acc = ([], Raised RenderError).
Proof.
  intros Hi Hpage Hctx Hrender. revert acc Hi.
  induction nums as [|j nums IH]; intros acc Hi; [by apply elem_of_nil in Hi|].
  simpl. destruct (decide (j = i)) as [->|Hne].
  - by rewrite Hpage, await_Some, bind_ret, Hctx, Hrender, await_None, bind_throw.
  - apply elem_of_cons in Hi as [->|Hi]; [done|].
    destruct (getPage pdf j) as [pj|]; [|by rewrite await_None, bind_throw].
    rewrite await_Some, bind_ret. destruct (getContext file j); [|by apply IH].
    destruct (render pj) as [u|]; [|by rewrite await_None, bind_throw].
    rewrite await_Some, bind_ret. by apply IH.
Qed.

Lemma loadPdfAndGetPreviews_rendered file pdf ps :
  getDocument (File.data file) = Some pdf ->
  renderPages getContext file pdf (seq 1 (numPages pdf)) [] = ([], Ok ps) ->
  loadPdfAndGetPreviews getDocument getContext file = ([GetDocument file], Ok (mkPreviews (numPages pdf) ps)).
Proof.
  intros Hdoc Hrun. unfold loadPdfAndGetPreviews.
  by rewrite Hdoc, await_Some, bind_ret, Hrun.
Qed.

Lemma loadPdfAndGetPreviews_rejected file pdf e :
  getDocument (File.data file) = Some pdf ->
  renderPages getContext file pdf (seq 1 (numPages pdf)) [] = ([], Raised e) ->
  loadPdfAndGetPreviews getDocument getContext file
  = ([GetDocument file; ConsoleError "PDF Preview Generation Error:"], Raised e).
Proof.
  intros Hdoc Hrun. unfold loadPdfAndGetPreviews.
  by rewrite Hdoc, await_Some, bind_ret, Hrun.
Qed.

(** What the loader raises is a [DecodeError] or a [RenderError]. *)
Lemma loadPdfAndGetPreviews_errors file log e :
  loadPdfAndGetPreviews getDocument getContext file = (log, Raised e) ->
  e = DecodeError \/ e = RenderError.
Proof.
  unfold loadPdfAndGetPreviews.
  destruct (getDocument (File.data file)) as [pdf|].
  - rewrite await_Some, bind_ret.
    destruct (renderPages_silent file pdf (seq 1 (numPages pdf)) [])
      as ([ps|e'] & -> & Herr).
    + discriminate.
    + intros [= _ <-]. right. by apply Herr.
  - rewrite await_None. intros [= _ <-]. by left.
Qed.

(** The loader and the loop alert nobody. *)
Lemma loadPdfAndGetPreviews_no_alert file :
  Forall (fun ev => isAlert ev = false)
    (loadPdfAndGetPreviews getDocument getContext file).1.
Proof.
  unfold loadPdfAndGetPreviews.
  destruct (getDocument (File.data file)) as [pdf|].
  - rewrite await_Some, bind_ret.
    destruct (renderPages_silent file pdf (seq 1 (numPages pdf)) [])
      as ([ps|e] & -> & _); repeat constructor.
  - rewrite await_None. repeat constructor.
Qed.

Lemma uploadLoop_no_alert fileIds selectedFiles : forall k newFiles newPages,
  Forall (fun ev => isAlert ev = false)
    (uploadLoop getDocument getContext fileIds k selectedFiles newFiles newPages).1.
Proof.
  induction selectedFiles as [|f rest IH]; intros k newFiles newPages;
    [constructor|].
  simpl. destruct (String.eqb (File.type f) "application/pdf"); simpl; [|apply IH].
  rewrite bind_log. apply Forall_app. split.
  - apply loadPdfAndGetPreviews_no_alert.
  - destruct (loadPdfAndGetPreviews getDocument getContext f).2; [apply IH|constructor].
Qed.

(** A file of the batch that the loader rejects makes the loop raise,
    whatever has been collected by then. *)
Lemma uploadLoop_raises fileIds k selectedFiles newFiles newPages file log e :
  file ∈ selectedFiles ->
  File.type file = "application/pdf" ->
  loadPdfAndGetPreviews getDocument getContext file = (log, Raised e) ->
  exists log' e', uploadLoop getDocument getContext fileIds k selectedFiles newFiles newPages
                  = (log', Raised e').
Proof.
  intros Hin Htype Hload. revert k newFiles newPages Hin.
  induction selectedFiles as [|f rest IH]; intros k newFiles newPages Hin;
    [by apply elem_of_nil in Hin|].
  simpl. destruct (String.eqb_spec (File.type f) "application/pdf") as [Hpdf|Hother];
    simpl.
  - destruct (loadPdfAndGetPreviews getDocument getContext f) as [logf [r|ef]] eqn:Hf.
    + apply elem_of_cons in Hin as [->|Hin]; [congruence|].
      destruct (IH (S k)
                  (newFiles ++ [PDFFile.mk (fileIds k) (File.name f) f (pageCount r)])
                  (newPages ++ pagesOf (fileIds k) f (previews r)) Hin)
        as (log' & e' & Hrest).
      exists (logf ++ log'), e'. by apply (bind_ok _ _ logf r).
    + exists logf, ef. by apply bind_raised.
  - apply elem_of_cons in Hin as [->|Hin]; [congruence|]. by apply IH.
Qed.

Lemma handleFileUpload_raises fileIds selectedFiles st file log e :
  file ∈ selectedFiles ->
  File.type file = "application/pdf" ->
  loadPdfAndGetPreviews getDocument getContext file = (log, Raised e) ->
  exists log',
    handleFileUpload getDocument getContext fileIds selectedFiles st
    = (setIsLoading false st,
       log' ++ [ConsoleError "Error processing PDFs:";
                Alert "There was an error processing your PDF files."]) /\
    Forall (fun ev => isAlert ev = false) log'.
Proof.
  intros Hin Htype Hload.
  destruct (uploadLoop_raises fileIds 0 selectedFiles [] [] file log e Hin Htype Hload)
    as (log' & e' & Hloop).
  pose proof (uploadLoop_no_alert fileIds selectedFiles 0 [] []) as Hquiet.
  rewrite Hloop in Hquiet.
  exists log'. split; [|done]. unfold handleFileUpload. rewrite Hloop.
  destruct selectedFiles; [by apply elem_of_nil in Hin|done].
Qed.

(** C4, as the code has it: when the document decodes to [N] pages and
    every page is delivered, gets a canvas context and renders, the loader
    returns exactly [N] previews, the preview of page [k+1] at position [k],
    and [pageCount] is the number of previews. *)
Theorem loadPdfAndGetPreviews_one_per_page file pdf (url : nat -> string) :
  getDocument (File.data file) = Some pdf ->
  (forall i, (1 <= i <= numPages pdf)%nat ->
     getContext file i = true /\
     exists page, getPage pdf i = Some page /\ render page = Some (url i)) ->
  exists r,
    loadPdfAndGetPreviews getDocument getContext file = ([GetDocument file], Ok r) /\
    length (previews r) = numPages pdf /\
    pageCount r = length (previews r) /\
    forall k, (k < numPages pdf)%nat -> previews r !! k = Some (url (S k)).
Proof.
  intros Hdoc Hpages.
  exists (mkPreviews (numPages pdf) (url <$> seq 1 (numPages pdf))).
  split; [|split; [|split]]; simpl.
  - apply loadPdfAndGetPreviews_rendered; [done|].
    rewrite (renderPages_all file pdf url); [done|].
    intros i Hi. apply elem_of_seq in Hi. apply Hpages. lia.
  - by rewrite length_fmap, length_seq.
  - by rewrite length_fmap, length_seq.
  - intros k Hk. by rewrite list_lookup_fmap, lookup_seq_lt.
Qed.

(** C6: a page whose render is rejected makes the whole load of its file
    fail with [RenderError]; and whenever that file is part of an upload,
    the registry and the page set come out of the handler as they went in,
    so that nothing of the document is added. *)
Theorem render_failure_fails_whole_load file i fileIds selectedFiles st :
  renderFails getDocument getContext file i ->
  (exists log, loadPdfAndGetPreviews getDocument getContext file = (log, Raised RenderError)) /\
  (file ∈ selectedFiles -> File.type file = "application/pdf" ->
     files (handleFileUpload getDocument getContext fileIds selectedFiles st).1 = files st /\
     allPages (handleFileUpload getDocument getContext fileIds selectedFiles st).1 = allPages st).
Proof.
  intros (pdf & page & Hdoc & Hi & Hpage & Hctx & Hrender).
  assert (loadPdfAndGetPreviews getDocument getContext file
          = ([GetDocument file; ConsoleError "PDF Preview Generation Error:"],
             Raised RenderError)) as Hload.
  { apply (loadPdfAndGetPreviews_rejected file pdf); [done|].
    apply (renderPages_rejects file pdf _ _ i page); [|done..].
    apply elem_of_seq. lia. }
  split; [eauto|].
  intros Hin Htype.
  destruct (handleFileUpload_raises fileIds selectedFiles st file _ _ Hin Htype Hload)
    as (log' & -> & _).
  done.
Qed.

(** C1, as the code has it: the [try] of the handler encloses the loop over
    the batch, so a [DecodeError] or [RenderError] on one file of type
    [application/pdf] aborts the whole batch: the handler leaves the
    registry and the page set as they were, for the failing file and for
    every other file of the batch alike, and its events end with the
    console message and the alert, which is the only alert of the run. *)
Theorem load_failure_aborts_batch file log e fileIds selectedFiles st :
  file ∈ selectedFiles ->
  File.type file = "application/pdf" ->
  loadPdfAndGetPreviews getDocument getContext file = (log, Raised e) ->
  (e = DecodeError \/ e = RenderError) /\
  exists log',
    handleFileUpload getDocument getContext fileIds selectedFiles st
    = (setIsLoading false st,
       log' ++ [ConsoleError "Error processing PDFs:";
                Alert "There was an error processing your PDF files."]) /\
    Forall (fun ev => isAlert ev = false) log'.
Proof.
  intros Hin Htype Hload. split.
  - by apply (loadPdfAndGetPreviews_errors file log).
  - by apply (handleFileUpload_raises fileIds selectedFiles st file log e).
Qed.

End Loader.

Lemma loadPdfAndGetPreviews_one_per_page_witness :
  exists r,
    loadPdfAndGetPreviews Sample.getDocument Sample.getContext Sample.fileA
    = ([GetDocument Sample.fileA], Ok r) /\
    length (previews r) = 3%nat /\
    pageCount r = length (previews r) /\
    forall k, (k < 3)%nat ->
      previews r !! k = Some (nth k ["A1"; "A2"; "A3"] "").
Proof.
  apply (loadPdfAndGetPreviews_one_per_page Sample.getDocument Sample.getContext
           Sample.fileA (Sample.proxy [Some "A1"; Some "A2"; Some "A3"])
           (fun i => nth (pred i) ["A1"; "A2"; "A3"] "")).
  - reflexivity.
  - intros i Hi. simpl in Hi.
    destruct i as [|[|[|[|i]]]]; try lia;
      (split; [reflexivity|eexists; split; reflexivity]).
Defined.

(** C4 as stated does not hold for every valid document: the two pages of
    [noctx.pdf] both decode and render, but the canvas of page 2 gets no
    context, the page is skipped, and the loader returns [pageCount = 2]
    with a single preview. *)
Lemma loadPdfAndGetPreviews_skips_page :
  loadable Sample.getDocument Sample.fileNoCtx /\
  loadPdfAndGetPreviews Sample.getDocument Sample.getContext Sample.fileNoCtx
  = ([GetDocument Sample.fileNoCtx], Ok (mkPreviews 2 ["B1"])) /\
  ~ (exists log r,
       loadPdfAndGetPreviews Sample.getDocument Sample.getContext Sample.fileNoCtx
       = (log, Ok r) /\
       length (previews r) = 2%nat /\ pageCount r = length (previews r)).
Proof.
  split; [|split; [reflexivity|]].
  - exists (Sample.proxy [Some "B1"; Some "B2"]). split; [reflexivity|].
    intros i Hi. simpl in Hi.
    destruct i as [|[|[|i]]]; try lia; (do 2 eexists; split; reflexivity).
  - intros (log & r & Hrun & Hlen & _).
    vm_compute in Hrun. injection Hrun as _ <-. discriminate.
Qed.

Lemma render_failure_fails_whole_load_witness :
  (exists log,
     loadPdfAndGetPreviews Sample.getDocument Sample.getContext Sample.fileTorn
     = (log, Raised RenderError)) /\
  files (handleFileUpload Sample.getDocument Sample.getContext Sample.fileIds
           [Sample.fileA; Sample.fileTorn] Sample.afterB).1
  = files Sample.afterB /\
  allPages (handleFileUpload Sample.getDocument Sample.getContext Sample.fileIds
              [Sample.fileA; Sample.fileTorn] Sample.afterB).1
  = allPages Sample.afterB.
Proof.
  assert (renderFails Sample.getDocument Sample.getContext Sample.fileTorn 2)
    as Hfails.
  { exists (Sample.proxy [Some "T1"; None]), (mkPageProxy None).
    repeat split; try reflexivity; simpl; lia. }
  split.
  - apply (render_failure_fails_whole_load Sample.getDocument Sample.getContext
             Sample.fileTorn 2 Sample.fileIds [Sample.fileA; Sample.fileTorn]
             Sample.afterB Hfails).
  - apply (render_failure_fails_whole_load Sample.getDocument Sample.getContext
             Sample.fileTorn 2 Sample.fileIds [Sample.fileA; Sample.fileTorn]
             Sample.afterB Hfails).
    + right. left.
    + reflexivity.
Defined.

Lemma load_failure_aborts_batch_witness :
  (DecodeError = DecodeError \/ DecodeError = RenderError) /\
  exists log',
    handleFileUpload Sample.getDocument Sample.getContext Sample.fileIds
      [Sample.fileA; Sample.fileJunk] Sample.afterB
    = (setIsLoading false Sample.afterB,
       log' ++ [ConsoleError "Error processing PDFs:";
                Alert "There was an error processing your PDF files."]) /\
    Forall (fun ev => isAlert ev = false) log'.
Proof.
  apply (load_failure_aborts_batch Sample.getDocument Sample.getContext
           Sample.fileJunk
           [GetDocument Sample.fileJunk; ConsoleError "PDF Preview Generation Error:"]
           DecodeError Sample.fileIds [Sample.fileA; Sample.fileJunk] Sample.afterB).
  - right. left.
  - reflexivity.
  - reflexivity.
Defined.

(** C1 as stated does not hold: uploaded alone, [a.pdf] is registered with
    its three pages; uploaded together with a file that does not decode, it
    is not registered and none of its pages reach the page set. *)
Lemma load_failure_drops_other_files :
  loadable Sample.getDocument Sample.fileA /\
  length (registered Sample.fileA
            (files (handleFileUpload Sample.getDocument Sample.getContext
                      Sample.fileIds [Sample.fileA] Sample.empty).1)) = 1%nat /\
  registered Sample.fileA
    (files (handleFileUpload Sample.getDocument Sample.getContext
              Sample.fileIds [Sample.fileA; Sample.fileJunk] Sample.empty).1) = [] /\
  allPages (handleFileUpload Sample.getDocument Sample.getContext
              Sample.fileIds [Sample.fileA; Sample.fileJunk] Sample.empty).1 = [].
Proof.
  split; [|repeat split; reflexivity].
  exists (Sample.proxy [Some "A1"; Some "A2"; Some "A3"]). split; [reflexivity|].
  intros i Hi. simpl in Hi.
  destruct i as [|[|[|[|i]]]]; try lia; (do 2 eexists; split; reflexivity).
Qed.

(** C2 as stated does not hold: after a second upload of the same bytes
    the registry holds two entries for them, under two ids, and the second
    upload has decoded the bytes again. *)
Lemma second_upload_registers_again :
  length (registered Sample.fileB (files Sample.afterB)) = 1%nat /\
  length (registered Sample.fileB
            (files (handleFileUpload Sample.getDocument Sample.getContext
                      Sample.laterIds [Sample.fileB] Sample.afterB).1)) = 2%nat /\
  PDFFile.id <$> files (handleFileUpload Sample.getDocument Sample.getContext
                          Sample.laterIds [Sample.fileB] Sample.afterB).1
  = ["id0"; "jd0"] /\
  occurrences (GetDocument Sample.fileB)
    (handleFileUpload Sample.getDocument Sample.getContext
       Sample.laterIds [Sample.fileB] Sample.afterB).2 = 1%nat.
Proof. repeat split; reflexivity. Qed.

(** * The merge compiler and the export handler *)

Lemma bind_emit_ret {A B} (ev : event) (a : A) (k : A -> M B) :
  bind (bind (emit ev) (fun _ => ret a)) k = (ev :: (k a).1, (k a).2).
Proof. unfold bind, emit, ret. by destruct (k a). Qed.

Section Merge.

Variable PDFDocument_load : string -> option (list string).
Variable save : list string -> option string.

(** One turn of the loop on a cached source document. *)
Lemma mergePages_cached it pages mergedPdf cache doc page :
  cache !! fileKey (sourceFile it) = Some doc ->
  doc !! pageIndex it = Some page ->
  mergePages PDFDocument_load (it :: pages) mergedPdf cache
  = mergePages PDFDocument_load pages (mergedPdf ++ [page]) cache.
Proof.
  intros Hc Hpage. simpl. rewrite Hc, bind_ret, Hpage, await_Some.
  by rewrite bind_ret.
Qed.

(** One turn of the loop on a source document that is not cached yet. *)
Lemma mergePages_fresh it pages mergedPdf cache doc page :
  cache !! fileKey (sourceFile it) = None ->
  PDFDocument_load (File.data (sourceFile it)) = Some doc ->
  doc !! pageIndex it = Some page ->
  mergePages PDFDocument_load (it :: pages) mergedPdf cache
  = (PDFDocumentLoad (sourceFile it)
       :: (mergePages PDFDocument_load pages (mergedPdf ++ [page])
             (<[fileKey (sourceFile it) := doc]> cache)).1,
     (mergePages PDFDocument_load pages (mergedPdf ++ [page])
        (<[fileKey (sourceFile it) := doc]> cache)).2).
Proof.
  intros Hc Hdoc Hpage. simpl.
  rewrite Hc, Hdoc, await_Some, bind_ret, bind_emit_ret, Hpage, await_Some.
  by rewrite bind_ret.
Qed.

(** The loop, from any cache that holds under the key of a referenced file
    the document of that file. *)
Lemma mergePages_run pages : forall mergedPdf (cache : gmap string (list string)),
  (forall f g, f ∈ referenced pages -> g ∈ referenced pages ->
     fileKey f = fileKey g -> f = g) ->
  (forall it, it ∈ pages -> is_Some (pageOf PDFDocument_load it)) ->
  (forall f doc, f ∈ referenced pages -> cache !! fileKey f = Some doc ->
     PDFDocument_load (File.data f) = Some doc) ->
  exists log new cache',
    mergePages PDFDocument_load pages mergedPdf cache
    = (log, Ok (mergedPdf ++ new, cache')) /\
    Some <$> new = pageOf PDFDocument_load <$> pages /\
    (forall ev, ev ∈ log -> exists f, f ∈ referenced pages /\ ev = PDFDocumentLoad f) /\
    (forall f, f ∈ referenced pages ->
       occurrences (PDFDocumentLoad f) log
       = match cache !! fileKey f with Some _ => 0%nat | None => 1%nat end).
Proof.
  induction pages as [|it pages IH]; intros mergedPdf cache Hinj Hok Hcache.
  { exists [], [], cache. simpl. rewrite app_nil_r.
    split; [done|]. split; [done|].
    split; intros ? Hin; by apply elem_of_nil in Hin. }
  assert (forall f g, f ∈ referenced pages -> g ∈ referenced pages ->
            fileKey f = fileKey g -> f = g) as Hinj'.
  { intros f g Hf Hg. apply Hinj; by right. }
  assert (forall it', it' ∈ pages -> is_Some (pageOf PDFDocument_load it')) as Hok'.
  { intros it' Hin. apply Hok. by right. }
  destruct (Hok it) as [page Hitem]; [left|].
  unfold pageOf in Hitem.
  destruct (PDFDocument_load (File.data (sourceFile it))) as [doc|] eqn:Hdoc;
    [|done].
  (* the events of the rest of the run never name a file outside of it *)
  assert (forall log : list event,
            (forall ev, ev ∈ log ->
               exists f, f ∈ referenced pages /\ ev = PDFDocumentLoad f) ->
            sourceFile it ∉ referenced pages ->
            occurrences (PDFDocumentLoad (sourceFile it)) log = 0%nat) as Hnone.
  { intros log Hlog Hnot. apply occurrences_absent. intros Hev.
    destruct (Hlog _ Hev) as (f & Hf & [= <-]). done. }
  destruct (cache !! fileKey (sourceFile it)) as [cached|] eqn:Hc.
  - assert (cached = doc) as ->.
    { specialize (Hcache (sourceFile it) cached). rewrite Hdoc in Hcache.
      symmetry. apply (inj Some), Hcache; [left|done]. }
    destruct (IH (mergedPdf ++ [page]) cache Hinj' Hok')
      as (log & new & cache' & Hrun & Hnew & Hlog & Hocc).
    { intros f d Hf. apply Hcache. by right. }
    exists log, (page :: new), cache'.
    rewrite (mergePages_cached it pages mergedPdf cache doc page Hc Hitem), Hrun.
    rewrite <- app_assoc. split; [done|]. split; [|split].
    + simpl. unfold pageOf at 1. rewrite Hdoc, Hitem. by f_equal.
    + intros ev Hev. destruct (Hlog ev Hev) as (f & Hf & ->).
      exists f. split; [by right|done].
    + intros f Hf. apply elem_of_cons in Hf as [->|Hf]; [|by apply Hocc].
      rewrite Hc. destruct (decide (sourceFile it ∈ referenced pages)) as [Hin|Hnot].
      * rewrite (Hocc _ Hin). by rewrite Hc.
      * by apply Hnone.
  - destruct (IH (mergedPdf ++ [page]) (<[fileKey (sourceFile it) := doc]> cache)
                Hinj' Hok')
      as (log & new & cache' & Hrun & Hnew & Hlog & Hocc).
    { intros f d Hf.
      destruct (decide (fileKey (sourceFile it) = fileKey f)) as [Hkey|Hkey].
      - rewrite Hkey, lookup_insert_eq. intros [= <-].
        rewrite <- (Hinj (sourceFile it) f); [done|left|by right|done].
      - rewrite lookup_insert_ne by done. apply Hcache. by right. }
    exists (PDFDocumentLoad (sourceFile it) :: log), (page :: new), cache'.
    rewrite (mergePages_fresh it pages mergedPdf cache doc page Hc Hdoc Hitem), Hrun.
    simpl. rewrite <- app_assoc. split; [done|]. split; [|split].
    + unfold pageOf at 1. rewrite Hdoc, Hitem. by f_equal.
    + intros ev Hev. apply elem_of_cons in Hev as [->|Hev].
      * exists (sourceFile it). split; [left|done].
      * destruct (Hlog ev Hev) as (f & Hf & ->). exists f. split; [by right|done].
    + intros f Hf. rewrite occurrences_cons.
      destruct (decide (sourceFile it = f)) as [<-|Hne].
      * rewrite decide_True by done. rewrite Hc.
        destruct (decide (sourceFile it ∈ referenced pages)) as [Hin|Hnot].
        -- rewrite (Hocc _ Hin). by rewrite lookup_insert_eq.
        -- by rewrite Hnone.
      * rewrite decide_False by congruence.
        apply elem_of_cons in Hf as [->|Hf]; [done|].
        rewrite (Hocc _ Hf), lookup_insert_ne; [done|].
        intros Hkey. apply Hne, Hinj; [left|by right|done].
Qed.

(** C5, as the code has it: the cache is keyed by [`${name}-${size}`].
    When the referenced files that differ have different keys and every
    item designates a page of its source, the loop loads each referenced
    source file exactly once, however many pages refer to it, and loads
    nothing else; and the merged document holds, at the position of each
    item, the page that the item designates, so that a page referred to
    twice appears twice. *)
Theorem mergePages_loads_each_source_once (pages : list item) :
  (forall f g, f ∈ referenced pages -> g ∈ referenced pages ->
     fileKey f = fileKey g -> f = g) ->
  (forall it, it ∈ pages -> is_Some (pageOf PDFDocument_load it)) ->
  exists log mergedPdf cache,
    mergePages PDFDocument_load pages [] ∅ = (log, Ok (mergedPdf, cache)) /\
    (forall f, f ∈ referenced pages ->
       occurrences (PDFDocumentLoad f) log = 1%nat) /\
    (forall ev, ev ∈ log ->
       exists f, f ∈ referenced pages /\ ev = PDFDocumentLoad f) /\
    length mergedPdf = length pages /\
    (forall i it, pages !! i = Some it ->
       mergedPdf !! i = pageOf PDFDocument_load it).
Proof.
  intros Hinj Hok.
  destruct (mergePages_run pages [] ∅ Hinj Hok)
    as (log & new & cache & Hrun & Hnew & Hlog & Hocc).
  { intros f doc _. by rewrite lookup_empty. }
  exists log, new, cache. split; [done|]. split; [|split; [done|split]].
  - intros f Hf. rewrite (Hocc f Hf). by rewrite lookup_empty.
  - rewrite <- (length_fmap Some new), Hnew. by rewrite length_fmap.
  - intros i it Hi.
    assert ((Some <$> new) !! i = Some (pageOf PDFDocument_load it)) as Hlook.
    { rewrite Hnew, list_lookup_fmap, Hi. done. }
    rewrite list_lookup_fmap in Hlook.
    destruct (new !! i) as [page|]; simpl in Hlook; congruence.
Qed.

Lemma arrayMap_missing (fs : list PDFFile.t) (ps : list PDFPage.t) (p : PDFPage.t) :
  p ∈ ps ->
  JS.find (fun f => String.eqb (PDFFile.id f) (PDFPage.sourceFileId p)) fs = None ->
  arrayMap (toProcess fs) (pageSet ps) = ([], Raised MissingSource).
Proof.
  intros Hin Hfind. induction ps as [|q ps IH]; [by apply elem_of_nil in Hin|].
  simpl. apply elem_of_cons in Hin as [<-|Hin].
  - by rewrite Hfind, bind_throw.
  - destruct (JS.find (fun f => String.eqb (PDFFile.id f) (PDFPage.sourceFileId q)) fs)
      as [sourceFile|]; [|by rewrite bind_throw].
    rewrite bind_ret. by rewrite IH.
Qed.

(** C7: when a page of the page set names a source that the registry does
    not hold, the mapping of the pages raises "Source file missing" before
    the merge is entered; the export ends in the alert, and no source is
    decoded and no download offered. *)
Theorem handleDownload_missing_source (st : AppState) (ps : list PDFPage.t)
    (p : PDFPage.t) :
  allPages st = pageSet ps ->
  p ∈ ps ->
  JS.find (fun f => String.eqb (PDFFile.id f) (PDFPage.sourceFileId p)) (files st)
  = None ->
  arrayMap (toProcess (files st)) (allPages st) = ([], Raised MissingSource) /\
  handleDownload PDFDocument_load save st
  = (setIsLoading false st,
     [ConsoleError "Export error:"; Alert "Failed to export PDF."]).
Proof.
  intros Hl Hin Hfind.
  assert (arrayMap (toProcess (files st)) (allPages st)
          = ([], Raised MissingSource)) as Hmap.
  { rewrite Hl. by apply (arrayMap_missing _ _ p). }
  split; [done|].
  unfold handleDownload. simpl. rewrite Hmap.
  destruct (allPages st) as [|s l] eqn:Hpages; [|done].
  destruct ps; [by apply elem_of_nil in Hin|done].
Qed.

End Merge.

Lemma mergePages_loads_each_source_once_witness :
  exists log mergedPdf cache,
    mergePages Sample.PDFDocument_load Sample.reuse [] ∅
    = (log, Ok (mergedPdf, cache)) /\
    (forall f, f ∈ referenced Sample.reuse ->
       occurrences (PDFDocumentLoad f) log = 1%nat) /\
    (forall ev, ev ∈ log ->
       exists f, f ∈ referenced Sample.reuse /\ ev = PDFDocumentLoad f) /\
    length mergedPdf = length Sample.reuse /\
    (forall i it, Sample.reuse !! i = Some it ->
       mergedPdf !! i = pageOf Sample.PDFDocument_load it).
Proof.
  apply (mergePages_loads_each_source_once Sample.PDFDocument_load Sample.reuse).
  - intros f g Hf Hg Hkey.
    repeat (apply elem_of_cons in Hf as [->|Hf]);
      repeat (apply elem_of_cons in Hg as [->|Hg]);
      try reflexivity;
      try (by apply elem_of_nil in Hf); try (by apply elem_of_nil in Hg);
      vm_compute in Hkey; discriminate.
  - intros it Hit.
    repeat (apply elem_of_cons in Hit as [->|Hit]);
      try (by apply elem_of_nil in Hit); by eexists.
Defined.

(** C5 as stated does not hold: the cache key is the name and the size of
    the file, not the source id. Of two different files named [a.pdf] of
    size 3 the loop loads the first one only; the second is never decoded,
    and the page copied for it is the page of the first. *)
Lemma mergePages_key_collision :
  (forall it, it ∈ Sample.collision -> is_Some (pageOf Sample.PDFDocument_load it)) /\
  (mergePages Sample.PDFDocument_load Sample.collision [] ∅).1
  = [PDFDocumentLoad Sample.fileA] /\
  occurrences (PDFDocumentLoad Sample.fileTwin)
    (mergePages Sample.PDFDocument_load Sample.collision [] ∅).1 = 0%nat /\
  (exists cache,
     (mergePages Sample.PDFDocument_load Sample.collision [] ∅).2
     = Ok (["A-one"; "A-one"], cache)) /\
  pageOf Sample.PDFDocument_load (mkItem Sample.fileTwin 0) = Some "Z-one".
Proof.
  split; [|split; [|split; [|split]]].
  - intros it Hit.
    repeat (apply elem_of_cons in Hit as [->|Hit]);
      try (by apply elem_of_nil in Hit); by eexists.
  - reflexivity.
  - reflexivity.
  - eexists. reflexivity.
  - reflexivity.
Qed.

Lemma handleDownload_missing_source_witness :
  arrayMap (toProcess (files Sample.dangling)) (allPages Sample.dangling)
  = ([], Raised MissingSource) /\
  handleDownload Sample.PDFDocument_load Sample.save Sample.dangling
  = (setIsLoading false Sample.dangling,
     [ConsoleError "Export error:"; Alert "Failed to export PDF."]).
Proof.
  apply (handleDownload_missing_source Sample.PDFDocument_load Sample.save
           Sample.dangling
           (pagesOf "id0" Sample.fileB ["B1"; "B2"] ++ [Sample.a0]) Sample.a0).
  - reflexivity.
  - apply elem_of_app. right. left.
  - reflexivity.
Defined.

(** * Further properties of the page set *)

Lemma removePage_pages (st : AppState) (index : Z) :
  allPages (removePage index st)
  = if decide (0 <= index) then delete (Z.to_nat index) (allPages st)
    else allPages st.
Proof.
  unfold removePage, setAllPages, JS.filter. simpl.
  rewrite filter_from_remove, Nat.sub_0_r. simpl.
  case_decide as Hin; case_decide as Hpos; try lia.
  - by rewrite delete_take_drop.
  - rewrite delete_take_drop, take_ge, drop_ge by lia. by rewrite app_nil_r.
  - done.
Qed.

Lemma delete_delete_lt {A} (l : list A) (i j : nat) :
  (i < j)%nat -> delete i (delete j l) = delete (j - 1)%nat (delete i l).
Proof.
  revert i j. induction l as [|x l IH]; intros i j Hij; [by destruct i, j|].
  destruct j as [|j]; [lia|]. destruct i as [|i]; simpl.
  - by rewrite Nat.sub_0_r.
  - rewrite Nat.sub_0_r. destruct j as [|j]; [lia|]. simpl.
    f_equal. rewrite IH by lia. f_equal. lia.
Qed.

(** X1. The same arrow on the same position twice: whenever [index] is in
    bounds, or the neighbour position is out of bounds, a second
    [movePage] with the same arguments undoes the first. *)
Theorem movePage_twice (st : AppState) (index : Z) (dir : direction) :
  inBounds (allPages st) index \/ ~ inBounds (allPages st) (neighbour index dir) ->
  movePage index dir (movePage index dir st) = st.
Proof.
  intros Hcase.
  destruct (decide (inBounds (allPages st) (neighbour index dir))) as [Hin|Hout].
  - destruct Hcase as [Hi|Hout]; [|done].
    destruct (movePage_exchange st index dir Hi Hin)
      as (pre & x & y & post & Hl & Hpre & ->).
    destruct dir; simpl in Hpre.
    + replace index with (Z.of_nat (length pre) + 1) by lia.
      rewrite (movePage_left_middle _ pre y x post) by done.
      destruct st; simpl in *. by subst.
    + replace index with (Z.of_nat (length pre)) by lia.
      rewrite (movePage_right_middle _ pre y x post) by done.
      destruct st; simpl in *. by subst.
  - by rewrite !(movePage_outside st index dir Hout).
Qed.

Lemma movePage_twice_witness :
  movePage 1 right (movePage 1 right Sample.threePages) = Sample.threePages.
Proof.
  apply (movePage_twice Sample.threePages 1 right).
  left. unfold inBounds. simpl. lia.
Defined.

(** X2. Moving a page to the right is moving its right neighbour to the
    left: with both positions in bounds the two calls give one state. *)
Theorem movePage_right_is_left_of_next (st : AppState) (index : Z) :
  inBounds (allPages st) index ->
  inBounds (allPages st) (index + 1) ->
  movePage index right st = movePage (index + 1) left st.
Proof.
  intros Hi Hn.
  destruct (movePage_exchange st index right Hi Hn)
    as (pre & x & y & post & Hl & Hpre & ->).
  simpl in Hpre.
  replace index with (Z.of_nat (length pre)) by lia.
  by rewrite (movePage_left_middle st pre x y post).
Qed.

Lemma movePage_right_is_left_of_next_witness :
  movePage 0 right Sample.threePages = movePage (0 + 1) left Sample.threePages.
Proof.
  apply (movePage_right_is_left_of_next Sample.threePages 0);
    unfold inBounds; simpl; lia.
Defined.

(** X3. The arrows of a card and [movePage] agree: on every card that is
    shown, a disabled arrow is one whose click would change nothing (the
    neighbour position is out of bounds), and an arrow that is not
    disabled exchanges the card at [index] with the card at its neighbour
    position, [index - 1] for the left arrow and [index + 1] for the right
    one, leaving every other card and the registry as they are. *)
Theorem arrows_match_movePage (st : AppState) (index : nat) :
  cardShown st index = true ->
  (if leftDisabled index
   then ~ inBounds (allPages st) (Z.of_nat index - 1) /\
        movePage (Z.of_nat index) left st = st
   else inBounds (allPages st) (Z.of_nat index - 1) /\
        files (movePage (Z.of_nat index) left st) = files st /\
        swapped (allPages st) (allPages (movePage (Z.of_nat index) left st))
          (Z.of_nat index) (Z.of_nat index - 1)) /\
  (if rightDisabled st index
   then ~ inBounds (allPages st) (Z.of_nat index + 1) /\
        movePage (Z.of_nat index) right st = st
   else inBounds (allPages st) (Z.of_nat index + 1) /\
        files (movePage (Z.of_nat index) right st) = files st /\
        swapped (allPages st) (allPages (movePage (Z.of_nat index) right st))
          (Z.of_nat index) (Z.of_nat index + 1)).
Proof.
  unfold cardShown, leftDisabled, rightDisabled. intros Hshown.
  apply Nat.ltb_lt in Hshown.
  assert (inBounds (allPages st) (Z.of_nat index)) as Hi
    by (unfold inBounds; lia).
  split.
  - destruct (Nat.eqb_spec index 0) as [->|Hne].
    + assert (~ inBounds (allPages st) (Z.of_nat 0 - 1)) as Hout
        by (unfold inBounds; lia).
      split; [done|]. by apply movePage_outside.
    + assert (inBounds (allPages st) (Z.of_nat index - 1)) as Hin
        by (unfold inBounds; lia).
      split; [done|].
      destruct (movePage_exchange st (Z.of_nat index) left Hi Hin)
        as (pre & x & y & post & Hl & Hpre & ->).
      split; [done|]. simpl in *. rewrite Hl.
      replace (Z.of_nat index) with (Z.of_nat (length pre) + 1) by lia.
      replace (Z.of_nat (length pre) + 1 - 1) with (Z.of_nat (length pre)) by lia.
      apply swapped_sym, swapped_pair.
  - destruct (Z.eqb_spec (Z.of_nat index) (Z.of_nat (length (allPages st)) - 1))
      as [Heq|Hne].
    + assert (~ inBounds (allPages st) (Z.of_nat index + 1)) as Hout
        by (unfold inBounds; lia).
      split; [done|]. by apply movePage_outside.
    + assert (inBounds (allPages st) (Z.of_nat index + 1)) as Hin
        by (unfold inBounds; lia).
      split; [done|].
      destruct (movePage_exchange st (Z.of_nat index) right Hi Hin)
        as (pre & x & y & post & Hl & Hpre & ->).
      split; [done|]. simpl in *. rewrite Hl.
      replace (Z.of_nat index) with (Z.of_nat (length pre)) by lia.
      apply swapped_pair.
Qed.

Lemma arrows_match_movePage_witness :
  (~ inBounds (allPages Sample.threePages) (Z.of_nat 0 - 1) /\
   movePage (Z.of_nat 0) left Sample.threePages = Sample.threePages) /\
  (inBounds (allPages Sample.threePages) (Z.of_nat 0 + 1) /\
   files (movePage (Z.of_nat 0) right Sample.threePages)
   = files Sample.threePages /\
   swapped (allPages Sample.threePages)
     (allPages (movePage (Z.of_nat 0) right Sample.threePages))
     (Z.of_nat 0) (Z.of_nat 0 + 1)).
Proof.
  apply (arrows_match_movePage Sample.threePages 0). reflexivity.
Defined.

(** X4. Two removals commute up to the shift of the later index: for
    [0 <= i < j], removing [j] and then [i] gives the state of removing [i]
    and then [j - 1], whether or not the indices are in bounds. *)
Theorem removePage_removePage (st : AppState) (i j : Z) :
  0 <= i < j ->
  removePage i (removePage j st) = removePage (j - 1) (removePage i st).
Proof.
  intros Hij.
  assert (forall st1 st2, files st1 = files st2 -> allPages st1 = allPages st2 ->
            isLoading st1 = isLoading st2 -> st1 = st2) as Hext.
  { intros [] []; simpl; by intros -> -> ->. }
  apply Hext; try done.
  rewrite !removePage_pages. repeat case_decide; try lia.
  rewrite delete_delete_lt by lia. f_equal. lia.
Qed.

Lemma removePage_removePage_witness :
  removePage 0 (removePage 2 Sample.threePages)
  = removePage (2 - 1) (removePage 0 Sample.threePages).
Proof. apply (removePage_removePage Sample.threePages 0 2). lia. Defined.

(** * Further properties of the preview loader and the upload *)

Lemma bind_Ok_inv {A B} (m : M A) (k : A -> M B) log b :
  bind m k = (log, Ok b) ->
  exists l1 a l2, m = (l1, Ok a) /\ k a = (l2, Ok b) /\ log = l1 ++ l2.
Proof.
  unfold bind. destruct m as [l1 [a|e]]; [|discriminate].
  destruct (k a) as [l2 r] eqn:Hk. intros [= <- ->]. by exists l1, a, l2.
Qed.

Lemma append_inj_r (s a b : string) : s +:+ a = s +:+ b -> a = b.
Proof. induction s as [|c s IH]; simpl; [done|]. intros [= H]. by apply IH. Qed.

Lemma pagesOf_elem fileId file previews p :
  p ∈ pagesOf fileId file previews ->
  PDFPage.sourceFileId p = fileId /\
  (PDFPage.pageIndex p < length previews)%nat /\
  PDFPage.originalFileName p = File.name file.
Proof.
  unfold pagesOf. intros Hp.
  apply elem_of_lookup_imap_1 in Hp as (i & url & -> & Hurl). simpl.
  repeat split. by apply lookup_lt_Some in Hurl.
Qed.

Lemma backed_app_l fs fs' p : backed fs p -> backed (fs ++ fs') p.
Proof.
  intros (f & Hf & H). exists f. split; [|done]. apply elem_of_app. by left.
Qed.

Lemma backed_app_r fs fs' p : backed fs' p -> backed (fs ++ fs') p.
Proof.
  intros (f & Hf & H). exists f. split; [|done]. apply elem_of_app. by right.
Qed.

Section LoaderFacts.

Variable getDocument : string -> option PDFDocumentProxy.
Variable getContext : File.t -> nat -> bool.

(** The loop never collects more than one preview per page number. *)
Lemma renderPages_bound file pdf nums : forall acc log ps,
  renderPages getContext file pdf nums acc = (log, Ok ps) ->
  (length ps <= length acc + length nums)%nat.
Proof.
  induction nums as [|i nums IH]; intros acc log ps; simpl.
  - intros [= _ <-]. lia.
  - destruct (getPage pdf i) as [page|]; [|by rewrite await_None, bind_throw].
    rewrite await_Some, bind_ret. destruct (getContext file i).
    + destruct (render page) as [url|]; [|by rewrite await_None, bind_throw].
      rewrite await_Some, bind_ret. intros Hrun. apply IH in Hrun.
      rewrite length_app in Hrun. simpl in Hrun. lia.
    + intros Hrun. apply IH in Hrun. lia.
Qed.

(** With no page rejecting, the loop collects what the pages with a
    context render to, in the order of the page numbers. *)
Lemma renderPages_shown file pdf nums : forall acc,
  (forall i, i ∈ nums ->
     is_Some (getPage pdf i) /\
     (getContext file i = true -> is_Some (pageUrl pdf i))) ->
  exists ps,
    renderPages getContext file pdf nums acc = ([], Ok (acc ++ ps)) /\
    Some <$> ps = pageUrl pdf <$> filter (fun i => getContext file i) nums.
Proof.
  induction nums as [|i nums IH]; intros acc Hall.
  - exists []. simpl. by rewrite app_nil_r.
  - destruct (Hall i) as [[page Hpage] Hurl]; [left|].
    assert (forall j, j ∈ nums ->
              is_Some (getPage pdf j) /\
              (getContext file j = true -> is_Some (pageUrl pdf j))) as Hall'.
    { intros j Hj. apply Hall. by right. }
    simpl. rewrite Hpage, await_Some, bind_ret, filter_cons.
    destruct (getContext file i) eqn:Hctx; simpl.
    + destruct Hurl as [url Hurl]; [done|].
      unfold pageUrl in Hurl. rewrite Hpage in Hurl.
      rewrite Hurl, await_Some, bind_ret.
      destruct (IH (acc ++ [url]) Hall') as (ps & Hrun & Hps).
      exists (url :: ps). rewrite Hrun, <- app_assoc. split; [done|].
      simpl. unfold pageUrl at 1. rewrite Hpage, Hurl. by f_equal.
    + destruct (IH acc Hall') as (ps & Hrun & Hps). by exists ps.
Qed.

(** The three ways a load can end. *)
Lemma loadPdfAndGetPreviews_cases (file : File.t) :
  match getDocument (File.data file) with
  | None =>
      loadPdfAndGetPreviews getDocument getContext file
      = ([GetDocument file; ConsoleError "PDF Preview Generation Error:"],
         Raised DecodeError)
  | Some pdf =>
      (exists ps,
         loadPdfAndGetPreviews getDocument getContext file
         = ([GetDocument file], Ok (mkPreviews (numPages pdf) ps)) /\
         (length ps <= numPages pdf)%nat) \/
      loadPdfAndGetPreviews getDocument getContext file
      = ([GetDocument file; ConsoleError "PDF Preview Generation Error:"],
         Raised RenderError)
  end.
Proof.
  destruct (getDocument (File.data file)) as [pdf|] eqn:Hdoc.
  - destruct (renderPages_silent getContext file pdf (seq 1 (numPages pdf)) [])
      as ([ps|e] & Hrun & Herr).
    + left. exists ps. split.
      * by apply (loadPdfAndGetPreviews_rendered _ _ file pdf ps).
      * apply renderPages_bound in Hrun. rewrite length_seq in Hrun.
        simpl in Hrun. lia.
    + right. rewrite (Herr e eq_refl) in Hrun.
      by apply (loadPdfAndGetPreviews_rejected _ _ file pdf).
  - unfold loadPdfAndGetPreviews. by rewrite Hdoc, await_None.
Qed.

(** X5. What the loader does with the bytes of a file, once
    [file.arrayBuffer()] has delivered them: bytes that do not decode give
    [DecodeError]; bytes that decode give either the page count of the
    document with at most that many previews, or [RenderError]. From the
    delivery of the bytes on the decoder is called once, and the console
    gets its message exactly when the load fails. A read of the file that
    fails is no part of the statement. *)
Theorem loadPdfAndGetPreviews_outcome (file : File.t) :
  match getDocument (File.data file) with
  | None =>
      loadPdfAndGetPreviews getDocument getContext file
      = ([GetDocument file; ConsoleError "PDF Preview Generation Error:"],
         Raised DecodeError)
  | Some pdf =>
      (exists ps,
         loadPdfAndGetPreviews getDocument getContext file
         = ([GetDocument file], Ok (mkPreviews (numPages pdf) ps)) /\
         (length ps <= numPages pdf)%nat) \/
      loadPdfAndGetPreviews getDocument getContext file
      = ([GetDocument file; ConsoleError "PDF Preview Generation Error:"],
         Raised RenderError)
  end.
Proof. exact (loadPdfAndGetPreviews_cases file). Qed.

(** X6. Which previews come back: when the document decodes, every page is
    delivered and every page that gets a canvas context renders, the
    loader returns the renderings of exactly the pages with a context, in
    page order. A page without a context is not rendered at all, so that
    its render cannot fail the load. *)
Theorem loadPdfAndGetPreviews_previews (file : File.t) (pdf : PDFDocumentProxy) :
  getDocument (File.data file) = Some pdf ->
  (forall i, (1 <= i <= numPages pdf)%nat ->
     is_Some (getPage pdf i) /\
     (getContext file i = true -> is_Some (pageUrl pdf i))) ->
  exists ps,
    loadPdfAndGetPreviews getDocument getContext file
    = ([GetDocument file], Ok (mkPreviews (numPages pdf) ps)) /\
    Some <$> ps
    = pageUrl pdf <$> filter (fun i => getContext file i) (seq 1 (numPages pdf)).
Proof.
  intros Hdoc Hpages.
  destruct (renderPages_shown file pdf (seq 1 (numPages pdf)) [])
    as (ps & Hrun & Hps).
  { intros i Hi. apply elem_of_seq in Hi. apply Hpages. lia. }
  exists ps. split; [|done].
  by apply (loadPdfAndGetPreviews_rendered _ _ file pdf ps).
Qed.

(** A load that succeeds: one decoder event, and no more previews than
    pages. *)
Lemma loadPdfAndGetPreviews_Ok file log r :
  loadPdfAndGetPreviews getDocument getContext file = (log, Ok r) ->
  log = [GetDocument file] /\ (length (previews r) <= pageCount r)%nat.
Proof.
  intros Hload. pose proof (loadPdfAndGetPreviews_cases file) as Hout.
  destruct (getDocument (File.data file)) as [pdf|].
  - destruct Hout as [(ps & Hrun & Hlen)|Hrun]; rewrite Hrun in Hload.
    + by injection Hload as <- <-.
    + discriminate.
  - rewrite Hout in Hload. discriminate.
Qed.

End LoaderFacts.

Section UploadFacts.

Variable getDocument : string -> option PDFDocumentProxy.
Variable getContext : File.t -> nat -> bool.

Lemma filter_isPdf_cons (f : File.t) (rest : list File.t) :
  filter (fun f => isPdf f) (f :: rest)
  = if isPdf f then f :: filter (fun f => isPdf f) rest
    else filter (fun f => isPdf f) rest.
Proof. rewrite filter_cons. by destruct (isPdf f). Qed.

Lemma uploadLoop_cons fileIds k f rest newFiles newPages :
  uploadLoop getDocument getContext fileIds k (f :: rest) newFiles newPages
  = if isPdf f then
      bind (loadPdfAndGetPreviews getDocument getContext f) (fun r =>
        uploadLoop getDocument getContext fileIds (S k) rest
          (newFiles ++ [PDFFile.mk (fileIds k) (File.name f) f (pageCount r)])
          (newPages ++ pagesOf (fileIds k) f (previews r)))
    else uploadLoop getDocument getContext fileIds k rest newFiles newPages.
Proof. simpl. unfold isPdf. by destruct (String.eqb _ _). Qed.

(** Files of another type have no part in the loop. *)
Lemma uploadLoop_filter fileIds selectedFiles : forall k newFiles newPages,
  uploadLoop getDocument getContext fileIds k selectedFiles newFiles newPages
  = uploadLoop getDocument getContext fileIds k
      (filter (fun f => isPdf f) selectedFiles) newFiles newPages.
Proof.
  induction selectedFiles as [|f rest IH]; intros k newFiles newPages; [done|].
  rewrite filter_isPdf_cons, uploadLoop_cons.
  destruct (isPdf f) eqn:Hpdf; [|apply IH].
  rewrite uploadLoop_cons, Hpdf.
  destruct (loadPdfAndGetPreviews getDocument getContext f) as [log [r|e]];
    [|done].
  unfold bind. by rewrite IH.
Qed.

(** What a loop that returns has collected. *)
Lemma uploadLoop_Ok fileIds selectedFiles : forall k newFiles newPages log newFiles' newPages',
  uploadLoop getDocument getContext fileIds k selectedFiles newFiles newPages
  = (log, Ok (newFiles', newPages')) ->
  exists fs ps,
    newFiles' = newFiles ++ fs /\ newPages' = newPages ++ ps /\
    PDFFile.file <$> fs = filter (fun f => isPdf f) selectedFiles /\
    PDFFile.id <$> fs = fileIds <$> seq k (length fs) /\
    (forall p, p ∈ ps -> backed fs p) /\
    log = GetDocument <$> filter (fun f => isPdf f) selectedFiles.
Proof.
  induction selectedFiles as [|f rest IH];
    intros k newFiles newPages log newFiles' newPages'.
  - simpl. intros [= <- <- <-]. exists [], []. rewrite !app_nil_r.
    repeat split; try done. intros p Hp. by apply elem_of_nil in Hp.
  - rewrite filter_isPdf_cons, uploadLoop_cons.
    destruct (isPdf f) eqn:Hpdf; [|apply IH].
    intros Hrun. apply bind_Ok_inv in Hrun as (l1 & r & l2 & Hload & Hrest & ->).
    apply loadPdfAndGetPreviews_Ok in Hload as [-> Hlen].
    apply IH in Hrest as (fs & ps & -> & -> & Hfiles & Hids & Hbacked & ->).
    exists (PDFFile.mk (fileIds k) (File.name f) f (pageCount r) :: fs),
      (pagesOf (fileIds k) f (previews r) ++ ps).
    rewrite <- !app_assoc. simpl. repeat split; try done.
    + f_equal. exact Hfiles.
    + f_equal. exact Hids.
    + intros p Hp. apply elem_of_app in Hp as [Hp|Hp].
      * apply pagesOf_elem in Hp as (Hid & Hidx & Hname).
        exists (PDFFile.mk (fileIds k) (File.name f) f (pageCount r)).
        split; [left|]. simpl. repeat split; [done|lia|done].
      * apply (backed_app_r [_]). by apply Hbacked.
Qed.

(** A batch whose PDF files all load makes the loop return. *)
Lemma uploadLoop_returns fileIds selectedFiles : forall k newFiles newPages,
  (forall f, f ∈ selectedFiles -> isPdf f = true ->
     exists log r, loadPdfAndGetPreviews getDocument getContext f = (log, Ok r)) ->
  exists log res,
    uploadLoop getDocument getContext fileIds k selectedFiles newFiles newPages
    = (log, Ok res).
Proof.
  induction selectedFiles as [|f rest IH]; intros k newFiles newPages Hall.
  - by exists [], (newFiles, newPages).
  - assert (forall g, g ∈ rest -> isPdf g = true ->
              exists log r,
                loadPdfAndGetPreviews getDocument getContext g = (log, Ok r))
      as Hrest.
    { intros g Hg. apply Hall. by right. }
    rewrite uploadLoop_cons. destruct (isPdf f) eqn:Hpdf; [|by apply IH].
    destruct (Hall f) as (logf & r & Hload); [left|done|].
    destruct (IH (S k)
                (newFiles ++ [PDFFile.mk (fileIds k) (File.name f) f (pageCount r)])
                (newPages ++ pagesOf (fileIds k) f (previews r)) Hrest)
      as (log & res & Hrun).
    exists (logf ++ log), res. by apply (bind_ok _ _ logf r).
Qed.

(** X7. A batch whose PDF files all load: the handler appends to the
    registry one entry per PDF file of the batch, in batch order and with
    the ids in the order of their draws, and to the page set pages that are
    each backed by one of the new entries; what was there before stays in
    front. Each PDF file is decoded once and nothing is reported. *)
Theorem handleFileUpload_success (fileIds : nat -> string)
    (selectedFiles : list File.t) (st : AppState) :
  (forall f, f ∈ selectedFiles -> isPdf f = true ->
     exists log r, loadPdfAndGetPreviews getDocument getContext f = (log, Ok r)) ->
  exists fs ps,
    files (handleFileUpload getDocument getContext fileIds selectedFiles st).1
    = files st ++ fs /\
    allPages (handleFileUpload getDocument getContext fileIds selectedFiles st).1
    = allPages st ++ pageSet ps /\
    PDFFile.file <$> fs = filter (fun f => isPdf f) selectedFiles /\
    PDFFile.id <$> fs = fileIds <$> seq 0 (length fs) /\
    (forall p, p ∈ ps -> backed fs p) /\
    (handleFileUpload getDocument getContext fileIds selectedFiles st).2
    = GetDocument <$> filter (fun f => isPdf f) selectedFiles.
Proof.
  intros Hall. unfold handleFileUpload.
  destruct selectedFiles as [|f rest].
  { exists [], []. simpl. rewrite !app_nil_r. repeat split; try done.
    intros p Hp. by apply elem_of_nil in Hp. }
  destruct (uploadLoop_returns fileIds (f :: rest) 0 [] [] Hall)
    as (log & [newFiles newPages] & Hrun).
  rewrite Hrun. simpl.
  apply uploadLoop_Ok in Hrun as (fs & ps & -> & -> & Hfiles & Hids & Hbacked & ->).
  by exists fs, ps.
Qed.

(** X8. Files whose type is not [application/pdf] are passed over: the
    registry, the page set and the events of an upload are those of the
    upload of the PDF files of the batch alone. *)
Theorem handleFileUpload_other_types (fileIds : nat -> string)
    (selectedFiles : list File.t) (st : AppState) :
  files (handleFileUpload getDocument getContext fileIds selectedFiles st).1
  = files (handleFileUpload getDocument getContext fileIds
             (filter (fun f => isPdf f) selectedFiles) st).1 /\
  allPages (handleFileUpload getDocument getContext fileIds selectedFiles st).1
  = allPages (handleFileUpload getDocument getContext fileIds
                (filter (fun f => isPdf f) selectedFiles) st).1 /\
  (handleFileUpload getDocument getContext fileIds selectedFiles st).2
  = (handleFileUpload getDocument getContext fileIds
       (filter (fun f => isPdf f) selectedFiles) st).2.
Proof.
  unfold handleFileUpload.
  rewrite (uploadLoop_filter fileIds selectedFiles 0 [] []).
  destruct selectedFiles as [|f rest]; [done|].
  destruct (filter (fun f => isPdf f) (f :: rest)) as [|g rest'] eqn:Hfilter.
  - simpl. by rewrite !app_nil_r.
  - by destruct (uploadLoop _ _ _ _ _ _ _) as [log [[newFiles newPages]|e]].
Qed.

(** X9. The pages of one file get pairwise different ids, whatever the id
    of the file: the id ends in the page index. *)
Theorem pagesOf_ids_distinct (fileId : string) (file : File.t)
    (previews : list string) :
  NoDup (PDFPage.id <$> pagesOf fileId file previews).
Proof.
  assert (PDFPage.id <$> pagesOf fileId file previews
          = (fun i : nat => fileId +:+ "-" +:+ pretty i) <$> seq 0 (length previews))
    as ->.
  { apply list_eq. intros i. unfold pagesOf.
    rewrite !list_lookup_fmap, list_lookup_imap.
    destruct (previews !! i) as [url|] eqn:Hurl; simpl.
    - rewrite lookup_seq_lt by (by apply lookup_lt_Some in Hurl). done.
    - rewrite lookup_seq_ge by (by apply lookup_ge_None in Hurl). done. }
  apply NoDup_fmap_2_strong; [|apply NoDup_seq].
  intros i j _ _ Heq.
  apply append_inj_r, (append_inj_r "-") in Heq. by apply (inj pretty).
Qed.

Lemma registered_length (file : File.t) (fs : list PDFFile.t) :
  length (registered file fs)
  = length (filter (fun f => f = file) (PDFFile.file <$> fs)).
Proof.
  unfold registered. induction fs as [|e fs IH]; [done|].
  rewrite fmap_cons, !filter_cons. simpl. case_decide; simpl; by rewrite IH.
Qed.

Lemma occurrences_GetDocument (file : File.t) (l : list File.t) :
  occurrences (GetDocument file) (GetDocument <$> l)
  = length (filter (fun f => f = file) l).
Proof.
  induction l as [|f l IH]; [done|].
  rewrite fmap_cons, occurrences_cons, filter_cons, IH.
  destruct (decide (f = file)) as [->|Hne].
  - by rewrite decide_True.
  - rewrite decide_False; [done|]. by intros [= ?].
Qed.

(** C2, as the code has it: the handler keeps no fingerprint and looks
    nothing up. In every batch whose PDF files all load, each PDF file is
    decoded and appended to the registry as a new entry under a newly
    drawn id, once for each of its occurrences in the batch and whatever
    the registry holds already: the number of entries that hold a file
    grows by the number of its occurrences, and so does the number of its
    decodings. *)
Theorem upload_registers_every_time (fileIds : nat -> string)
    (selectedFiles : list File.t) (st : AppState) (file : File.t) :
  (forall f, f ∈ selectedFiles -> isPdf f = true ->
     exists log r, loadPdfAndGetPreviews getDocument getContext f = (log, Ok r)) ->
  exists fs,
    files (handleFileUpload getDocument getContext fileIds selectedFiles st).1
    = files st ++ fs /\
    PDFFile.file <$> fs = filter (fun f => isPdf f) selectedFiles /\
    PDFFile.id <$> fs = fileIds <$> seq 0 (length fs) /\
    length (registered file
              (files (handleFileUpload getDocument getContext fileIds
                        selectedFiles st).1))
    = (length (registered file (files st))
       + length (filter (fun f => f = file)
                   (filter (fun f => isPdf f) selectedFiles)))%nat /\
    occurrences (GetDocument file)
      (handleFileUpload getDocument getContext fileIds selectedFiles st).2
    = length (filter (fun f => f = file)
                (filter (fun f => isPdf f) selectedFiles)).
Proof.
  intros Hall.
  assert (exists fs,
            files (handleFileUpload getDocument getContext fileIds selectedFiles st).1
            = files st ++ fs /\
            PDFFile.file <$> fs = filter (fun f => isPdf f) selectedFiles /\
            PDFFile.id <$> fs = fileIds <$> seq 0 (length fs) /\
            (handleFileUpload getDocument getContext fileIds selectedFiles st).2
            = GetDocument <$> filter (fun f => isPdf f) selectedFiles)
    as (fs & Hfiles & Hfs & Hids & Hlog).
  { unfold handleFileUpload. destruct selectedFiles as [|f rest].
    { exists []. simpl. by rewrite app_nil_r. }
    destruct (uploadLoop_returns fileIds (f :: rest) 0 [] [] Hall)
      as (log & [newFiles newPages] & Hrun).
    rewrite Hrun. simpl.
    apply uploadLoop_Ok in Hrun as (fs & ps & -> & -> & Hfs & Hids & _ & ->).
    by exists fs. }
  exists fs. rewrite Hfiles, Hlog. repeat split; try done.
  - unfold registered. rewrite filter_app, length_app.
    fold (registered file (files st)). fold (registered file fs).
    by rewrite (registered_length file fs), Hfs.
  - apply occurrences_GetDocument.
Qed.

End UploadFacts.

Lemma upload_registers_every_time_witness :
  exists fs,
    files (handleFileUpload Sample.getDocument Sample.getContext Sample.laterIds
             [Sample.fileB; Sample.fileA; Sample.fileB] Sample.afterB).1
    = files Sample.afterB ++ fs /\
    PDFFile.file <$> fs
    = filter (fun f => isPdf f) [Sample.fileB; Sample.fileA; Sample.fileB] /\
    PDFFile.id <$> fs = Sample.laterIds <$> seq 0 (length fs) /\
    length (registered Sample.fileB
              (files (handleFileUpload Sample.getDocument Sample.getContext
                        Sample.laterIds [Sample.fileB; Sample.fileA; Sample.fileB]
                        Sample.afterB).1))
    = (length (registered Sample.fileB (files Sample.afterB))
       + length (filter (fun f => f = Sample.fileB)
                   (filter (fun f => isPdf f)
                      [Sample.fileB; Sample.fileA; Sample.fileB])))%nat /\
    occurrences (GetDocument Sample.fileB)
      (handleFileUpload Sample.getDocument Sample.getContext Sample.laterIds
         [Sample.fileB; Sample.fileA; Sample.fileB] Sample.afterB).2
    = length (filter (fun f => f = Sample.fileB)
                (filter (fun f => isPdf f)
                   [Sample.fileB; Sample.fileA; Sample.fileB])).
Proof.
  apply (upload_registers_every_time Sample.getDocument Sample.getContext
           Sample.laterIds [Sample.fileB; Sample.fileA; Sample.fileB]
           Sample.afterB Sample.fileB).
  intros f Hf _.
  repeat (apply elem_of_cons in Hf as [->|Hf]);
    try (by apply elem_of_nil in Hf); do 2 eexists; reflexivity.
Defined.

Lemma handleFileUpload_success_witness :
  exists fs ps,
    files (handleFileUpload Sample.getDocument Sample.getContext Sample.laterIds
             [Sample.fileA; Sample.fileB] Sample.afterB).1
    = files Sample.afterB ++ fs /\
    allPages (handleFileUpload Sample.getDocument Sample.getContext Sample.laterIds
                [Sample.fileA; Sample.fileB] Sample.afterB).1
    = allPages Sample.afterB ++ pageSet ps /\
    PDFFile.file <$> fs
    = filter (fun f => isPdf f) [Sample.fileA; Sample.fileB] /\
    PDFFile.id <$> fs = Sample.laterIds <$> seq 0 (length fs) /\
    (forall p, p ∈ ps -> backed fs p) /\
    (handleFileUpload Sample.getDocument Sample.getContext Sample.laterIds
       [Sample.fileA; Sample.fileB] Sample.afterB).2
    = GetDocument <$> filter (fun f => isPdf f) [Sample.fileA; Sample.fileB].
Proof.
  apply (handleFileUpload_success Sample.getDocument Sample.getContext
           Sample.laterIds [Sample.fileA; Sample.fileB] Sample.afterB).
  intros f Hf _.
  repeat (apply elem_of_cons in Hf as [->|Hf]);
    try (by apply elem_of_nil in Hf); do 2 eexists; reflexivity.
Defined.

(** * The invariant of a session *)

Lemma find_elem {A} (f : A -> bool) (a : list A) (x : A) :
  x ∈ a -> f x = true -> is_Some (JS.find f a).
Proof.
  induction a as [|y a IH]; intros Hx Hf; [by apply elem_of_nil in Hx|].
  simpl. destruct (f y) eqn:Hy; [by eexists|].
  apply elem_of_cons in Hx as [->|Hx]; [congruence|by apply IH].
Qed.

Lemma backed_resolves fs p :
  backed fs p ->
  is_Some (JS.find (fun f => String.eqb (PDFFile.id f) (PDFPage.sourceFileId p)) fs).
Proof.
  intros (f & Hf & Hid & _). apply (find_elem _ _ f Hf).
  rewrite Hid. apply String.eqb_refl.
Qed.

Lemma movePage_isLoading st index dir :
  isLoading (movePage index dir st) = isLoading st.
Proof. unfold movePage. by destruct (_ || _). Qed.

Lemma movePage_pagesBacked st index dir :
  inBounds (allPages st) index -> pagesBacked st ->
  pagesBacked (movePage index dir st).
Proof.
  intros Hi Hpages.
  destruct (decide (inBounds (allPages st) (neighbour index dir))) as [Hin|Hout];
    [|by rewrite movePage_outside].
  destruct (movePage_exchange st index dir Hi Hin)
    as (pre & x & y & post & Hl & _ & ->).
  unfold pagesBacked. simpl. intros s Hs. apply Hpages. rewrite Hl.
  rewrite elem_of_app, !elem_of_cons in Hs.
  rewrite elem_of_app, !elem_of_cons. tauto.
Qed.

Lemma removePage_pagesBacked st index :
  pagesBacked st -> pagesBacked (removePage index st).
Proof.
  intros Hpages. unfold pagesBacked.
  rewrite removePage_pages. case_decide; [|done].
  intros s Hs. by apply Hpages, (list_elem_of_delete_inv _ (Z.to_nat index)).
Qed.

Lemma clearAll_pagesBacked confirmed st :
  pagesBacked st -> pagesBacked (clearAll confirmed st).
Proof.
  intros Hpages. destruct confirmed; [|done].
  intros s Hs. by apply elem_of_nil in Hs.
Qed.

Lemma clearAll_isLoading confirmed st :
  isLoading (clearAll confirmed st) = isLoading st.
Proof. by destruct confirmed. Qed.

Lemma settle_isLoading c st : isLoading (settle c st) = false.
Proof. by destruct c as [[[newFiles newPages]|e]|]. Qed.

Lemma settle_pagesBacked c st :
  completionBacked c -> pagesBacked st -> pagesBacked (settle c st).
Proof.
  intros Hc Hpages. destruct c as [[[newFiles newPages]|e]|]; [|done..].
  unfold pagesBacked. simpl. intros s Hs. apply elem_of_app in Hs as [Hs|Hs].
  - destruct (Hpages s Hs) as (p & -> & Hp). exists p. split; [done|].
    by apply backed_app_l.
  - unfold pageSet in Hs. apply list_elem_of_fmap in Hs as (p & -> & Hp).
    exists p. split; [done|]. by apply backed_app_r, Hc.
Qed.

Section SessionFacts.

Variable getDocument : string -> option PDFDocumentProxy.
Variable getContext : File.t -> nat -> bool.
Variable PDFDocument_load : string -> option (list string).
Variable save : list string -> option string.

(** An upload that nothing interrupts: the handler that begins and resumes
    at once leaves the state of [handleFileUpload]. *)
Lemma upload_uninterrupted fileIds selectedFiles (s : Session) :
  view (step getDocument getContext (Settle (length (inFlight s)))
          (step getDocument getContext (ChooseFiles fileIds selectedFiles) s))
  = (handleFileUpload getDocument getContext fileIds selectedFiles (view s)).1.
Proof.
  destruct s as [st fl]. unfold handleFileUpload.
  destruct selectedFiles as [|f rest]; cbn -[uploadLoop].
  - by rewrite lookup_ge_None_2.
  - rewrite list_lookup_middle by done. cbn -[uploadLoop].
    by destruct (uploadLoop _ _ _ _ _ _ _) as [log [[newFiles newPages]|e]].
Qed.

(** An export that nothing interrupts leaves the state of
    [handleDownload]. *)
Lemma export_uninterrupted (s : Session) :
  view (step getDocument getContext (Settle (length (inFlight s)))
          (step getDocument getContext ClickExport s))
  = (handleDownload PDFDocument_load save (view s)).1.
Proof.
  destruct s as [st fl]. unfold handleDownload. simpl.
  destruct (allPages st) as [|x l] eqn:Hpages; simpl.
  - by rewrite lookup_ge_None_2.
  - rewrite list_lookup_middle by done. simpl.
    by destruct (bind _ _) as [log [u|e]].
Qed.

Lemma step_invariant a s :
  offered s a = true -> sessionInvariant s ->
  sessionInvariant (step getDocument getContext a s).
Proof.
  destruct s as [st fl]. intros Hoff (Hpages & Hfl & Hquiet). simpl in *.
  assert (forall index, cardShown st index = true ->
            inBounds (allPages st) (Z.of_nat index)) as Hcard.
  { intros index Hshown. apply Nat.ltb_lt in Hshown. unfold inBounds. lia. }
  destruct a as [fileIds selectedFiles|i|i|i|confirmed| |k];
    unfold sessionInvariant, step; cbn [view inFlight].
  - destruct selectedFiles as [|f rest]; [done|]. cbn [view inFlight].
    split; [exact Hpages|]. split; [|intros Hnil; by destruct fl].
    apply Forall_app. split; [done|]. apply Forall_singleton.
    destruct (uploadLoop _ _ _ _ _ _ _) as [log [[newFiles newPages]|e]] eqn:Hrun;
      [|done].
    apply uploadLoop_Ok in Hrun as (fs & ps & -> & -> & _ & _ & Hbacked & _).
    exact Hbacked.
  - apply andb_true_iff in Hoff as [Hshown _].
    split; [by apply movePage_pagesBacked; [apply Hcard|]|]. split; [done|].
    rewrite movePage_isLoading. exact Hquiet.
  - apply andb_true_iff in Hoff as [Hshown _].
    split; [by apply movePage_pagesBacked; [apply Hcard|]|]. split; [done|].
    rewrite movePage_isLoading. exact Hquiet.
  - split; [by apply removePage_pagesBacked|]. by split.
  - split; [by apply clearAll_pagesBacked|]. split; [done|].
    rewrite clearAll_isLoading. exact Hquiet.
  - destruct (allPages st) as [|x l] eqn:Hl; [done|]. cbn [view inFlight].
    split; [exact Hpages|]. split; [|intros Hnil; by destruct fl].
    apply Forall_app. split; [done|]. by apply Forall_singleton.
  - destruct (fl !! k) as [c|] eqn:Hk; [|done]. cbn [view inFlight].
    split; [|split].
    + apply settle_pagesBacked; [|done]. by apply (Forall_lookup_1 _ fl k).
    + by apply Forall_delete.
    + intros _. apply settle_isLoading.
Qed.

Lemma reachable_invariant s :
  reachable getDocument getContext s -> sessionInvariant s.
Proof.
  induction 1 as [|s a _ IH Hoff].
  - split; [|split; [constructor|done]].
    intros x Hx. by apply elem_of_nil in Hx.
  - by apply step_invariant.
Qed.

Lemma wellFormed_items st :
  wellFormed st ->
  exists items,
    arrayMap (toProcess (files st)) (allPages st) = ([], Ok items) /\
    length items = length (allPages st) /\
    forall k p, allPages st !! k = Some (Page p) ->
      pageIndex <$> items !! k = Some (PDFPage.pageIndex p).
Proof.
  intros [_ Hpages]. induction (allPages st) as [|s l IH].
  - exists []. repeat split. intros k p Hk. by rewrite lookup_nil in Hk.
  - destruct IH as (items & Hrun & Hlen & Hidx).
    { intros s' Hs'. apply Hpages. by right. }
    destruct (Hpages s) as (p & -> & Hp); [left|].
    destruct (backed_resolves _ _ Hp) as [sourceFile Hfind].
    exists (mkItem (PDFFile.file sourceFile) (PDFPage.pageIndex p) :: items).
    simpl. rewrite Hfind, bind_ret, Hrun. split; [done|]. split; [by rewrite Hlen|].
    intros [|k] q; simpl; [by intros [= <-]|apply Hidx].
Qed.

(** X10. The invariant of a session: in every session that can come
    about from the initial state, whatever the order in which the user
    chooses files, clicks arrows, trash icons, "Clear All" and the export
    button and in which the handlers in flight resume, the page set holds
    page objects only and every page is backed by a registry entry with
    its source id, its file name and more pages than its page index; and
    once no handler is in flight, nothing is shown as loading. *)
Theorem reachable_wellFormed (s : Session) :
  reachable getDocument getContext s ->
  pagesBacked (view s) /\
  (inFlight s = [] -> wellFormed (view s)).
Proof.
  intros Hreach. destruct (reachable_invariant s Hreach) as (Hpages & _ & Hquiet).
  split; [done|]. intros Hnil. split; [by apply Hquiet|done].
Qed.

(** X11. In a state that satisfies the invariant the export finds the
    source of every page: the mapping of the page set returns one item per
    page, in order and with the page's index, and neither "Source file
    missing" nor a [TypeError] comes up. *)
Theorem wellFormed_export_resolves (st : AppState) :
  wellFormed st ->
  exists items,
    arrayMap (toProcess (files st)) (allPages st) = ([], Ok items) /\
    length items = length (allPages st) /\
    forall k p, allPages st !! k = Some (Page p) ->
      pageIndex <$> items !! k = Some (PDFPage.pageIndex p).
Proof. exact (wellFormed_items st). Qed.

End SessionFacts.

Lemma reachable_wellFormed_witness :
  pagesBacked
    (view
       (step Sample.getDocument Sample.getContext (Settle 0)
          (step Sample.getDocument Sample.getContext (ClickRight 0)
             (step Sample.getDocument Sample.getContext (Settle 1)
                (step Sample.getDocument Sample.getContext
                   (ChooseFiles Sample.laterIds [Sample.fileA])
                   (step Sample.getDocument Sample.getContext
                      (ChooseFiles Sample.fileIds [Sample.fileB])
                      (mkSession (mkState [] [] false) []))))))) /\
  (inFlight
     (step Sample.getDocument Sample.getContext (Settle 0)
        (step Sample.getDocument Sample.getContext (ClickRight 0)
           (step Sample.getDocument Sample.getContext (Settle 1)
              (step Sample.getDocument Sample.getContext
                 (ChooseFiles Sample.laterIds [Sample.fileA])
                 (step Sample.getDocument Sample.getContext
                    (ChooseFiles Sample.fileIds [Sample.fileB])
                    (mkSession (mkState [] [] false) [])))))) = [] ->
   wellFormed
     (view
        (step Sample.getDocument Sample.getContext (Settle 0)
           (step Sample.getDocument Sample.getContext (ClickRight 0)
              (step Sample.getDocument Sample.getContext (Settle 1)
                 (step Sample.getDocument Sample.getContext
                    (ChooseFiles Sample.laterIds [Sample.fileA])
                    (step Sample.getDocument Sample.getContext
                       (ChooseFiles Sample.fileIds [Sample.fileB])
                       (mkSession (mkState [] [] false) [])))))))).
Proof.
  apply (reachable_wellFormed Sample.getDocument Sample.getContext).
  do 5 (apply reachable_step; [|reflexivity]).
  apply reachable_init.
Defined.

Lemma wellFormed_export_resolves_witness :
  exists items,
    arrayMap (toProcess (files Sample.afterB)) (allPages Sample.afterB)
    = ([], Ok items) /\
    length items = length (allPages Sample.afterB) /\
    forall k p, allPages Sample.afterB !! k = Some (Page p) ->
      pageIndex <$> items !! k = Some (PDFPage.pageIndex p).
Proof.
  apply (wellFormed_export_resolves Sample.afterB).
  split; [reflexivity|].
  intros s Hs. vm_compute in Hs.
  repeat (apply elem_of_cons in Hs as [->|Hs]); try (by apply elem_of_nil in Hs);
    (eexists; split; [reflexivity|];
     eexists; split; [left|]; repeat split; simpl; lia).
Defined.

(** * Further properties of the merge and the export *)

Lemma loads_fmap (fs : list File.t) : loads (PDFDocumentLoad <$> fs) = fs.
Proof. induction fs as [|f fs IH]; [done|]. simpl. f_equal. exact IH. Qed.

Lemma toLowerCase_app (a b : string) :
  JS.toLowerCase (a +:+ b) = JS.toLowerCase a +:+ JS.toLowerCase b.
Proof. induction a as [|c a IH]; simpl; [done|]. by rewrite IH. Qed.

Lemma length_append (a b : string) :
  String.length (a +:+ b) = (String.length a + String.length b)%nat.
Proof. induction a as [|c a IH]; simpl; [done|]. by rewrite IH. Qed.

Lemma substring_all (t : string) : String.substring 0 (String.length t) t = t.
Proof. induction t as [|c t IH]; simpl; [done|]. by rewrite IH. Qed.

Lemma substring_skip (a t : string) (k : nat) :
  String.substring (String.length a) k (a +:+ t) = String.substring 0 k t.
Proof. induction a as [|c a IH]; simpl; [done|]. apply IH. Qed.

Lemma endsWith_app (a t : string) : JS.endsWith (a +:+ t) t = true.
Proof.
  unfold JS.endsWith. rewrite length_append.
  destruct (Nat.leb_spec (String.length t) (String.length a + String.length t))
    as [_|Hlt]; [|lia].
  replace (String.length a + String.length t - String.length t)%nat
    with (String.length a) by lia.
  rewrite substring_skip, substring_all. apply String.eqb_refl.
Qed.

Section MergeFacts.

Variable PDFDocument_load : string -> option (list string).
Variable save : list string -> option string.

(** One turn of the loop, in each of its five ways. *)
Lemma mergePages_cons it pages mergedPdf (cache : gmap string (list string)) :
  mergePages PDFDocument_load (it :: pages) mergedPdf cache
  = match cache !! fileKey (sourceFile it) with
    | Some doc =>
        match doc !! pageIndex it with
        | Some page => mergePages PDFDocument_load pages (mergedPdf ++ [page]) cache
        | None => ([], Raised CopyError)
        end
    | None =>
        match PDFDocument_load (File.data (sourceFile it)) with
        | Some doc =>
            match doc !! pageIndex it with
            | Some page =>
                (PDFDocumentLoad (sourceFile it)
                   :: (mergePages PDFDocument_load pages (mergedPdf ++ [page])
                         (<[fileKey (sourceFile it) := doc]> cache)).1,
                 (mergePages PDFDocument_load pages (mergedPdf ++ [page])
                    (<[fileKey (sourceFile it) := doc]> cache)).2)
            | None => ([PDFDocumentLoad (sourceFile it)], Raised CopyError)
            end
        | None => ([PDFDocumentLoad (sourceFile it)], Raised DecodeError)
        end
    end.
Proof.
  destruct (cache !! fileKey (sourceFile it)) as [doc|] eqn:Hc.
  - destruct (doc !! pageIndex it) as [page|] eqn:Hpage.
    + by apply (mergePages_cached _ it pages mergedPdf cache doc page).
    + simpl. by rewrite Hc, bind_ret, Hpage, await_None, bind_throw.
  - destruct (PDFDocument_load (File.data (sourceFile it))) as [doc|] eqn:Hdoc.
    + destruct (doc !! pageIndex it) as [page|] eqn:Hpage.
      * by apply (mergePages_fresh _ it pages mergedPdf cache doc page).
      * simpl. rewrite Hc, Hdoc, await_Some, bind_ret, bind_emit_ret, Hpage.
        by rewrite await_None, bind_throw.
    + simpl. by rewrite Hc, Hdoc, await_None.
Qed.

(** The events of the loop, whatever its end: loads only, of referenced
    files whose key the cache did not hold, and no key twice; an exception
    is a [DecodeError] or a [CopyError]; a result has one more page per
    item. *)
Lemma mergePages_events pages : forall mergedPdf (cache : gmap string (list string)),
  exists fs,
    (mergePages PDFDocument_load pages mergedPdf cache).1 = PDFDocumentLoad <$> fs /\
    NoDup (fileKey <$> fs) /\
    (forall f, f ∈ fs -> f ∈ referenced pages /\ cache !! fileKey f = None) /\
    match (mergePages PDFDocument_load pages mergedPdf cache).2 with
    | Ok (mergedPdf', _) => length mergedPdf' = (length mergedPdf + length pages)%nat
    | Raised e => e = DecodeError \/ e = CopyError
    end.
Proof.
  induction pages as [|it pages IH]; intros mergedPdf cache.
  { exists []. simpl. split; [done|]. split; [apply NoDup_nil_2|]. split; [|lia].
    intros f Hf. by apply elem_of_nil in Hf. }
  rewrite mergePages_cons.
  destruct (cache !! fileKey (sourceFile it)) as [doc|] eqn:Hc.
  - destruct (doc !! pageIndex it) as [page|].
    + destruct (IH (mergedPdf ++ [page]) cache) as (fs & Hlog & Hnd & Hfs & Hres).
      exists fs. split; [done|]. split; [done|]. split.
      * intros f Hf. destruct (Hfs f Hf). split; [by right|done].
      * destruct (mergePages _ _ _ _).2 as [[m c]|e]; [|done].
        rewrite Hres, length_app. simpl. lia.
    + exists []. simpl. split; [done|]. split; [apply NoDup_nil_2|].
      split; [|by right]. intros f Hf. by apply elem_of_nil in Hf.
  - assert (forall f, f ∈ [sourceFile it] ->
              f ∈ referenced (it :: pages) /\ cache !! fileKey f = None) as Hone.
    { intros f Hf. apply list_elem_of_singleton in Hf as ->. split; [left|done]. }
    destruct (PDFDocument_load (File.data (sourceFile it))) as [doc|].
    2:{ exists [sourceFile it]. simpl. split; [done|].
        split; [apply NoDup_singleton|]. split; [done|by left]. }
    destruct (doc !! pageIndex it) as [page|].
    2:{ exists [sourceFile it]. simpl. split; [done|].
        split; [apply NoDup_singleton|]. split; [done|by right]. }
    destruct (IH (mergedPdf ++ [page]) (<[fileKey (sourceFile it) := doc]> cache))
      as (fs & Hlog & Hnd & Hfs & Hres).
    exists (sourceFile it :: fs). simpl. rewrite Hlog. split; [done|].
    split; [|split].
    + apply NoDup_cons. split; [|done].
      intros Hin. apply list_elem_of_fmap in Hin as (g & Hkey & Hg).
      destruct (Hfs g Hg) as [_ Hnone].
      by rewrite <- Hkey, lookup_insert_eq in Hnone.
    + intros f Hf. apply elem_of_cons in Hf as [->|Hf]; [by split; [left|]|].
      destruct (Hfs f Hf) as [Href Hnone]. split; [by right|].
      destruct (decide (fileKey (sourceFile it) = fileKey f)) as [Hkey|Hkey].
      * by rewrite Hkey, lookup_insert_eq in Hnone.
      * by rewrite lookup_insert_ne in Hnone.
    + destruct (mergePages _ _ _ _).2 as [[m c]|e]; [|done].
      rewrite Hres, length_app. simpl. lia.
Qed.

(** The two ways [mergeAndDownloadPdf] can end. *)
Lemma mergeAndDownloadPdf_cases (pages : list item) (fileName : string) :
  exists fs,
    NoDup (fileKey <$> fs) /\
    ((exists mergedPdf bytes,
        save mergedPdf = Some bytes /\
        length mergedPdf = length pages /\
        mergeAndDownloadPdf PDFDocument_load save pages fileName
        = ((PDFDocumentLoad <$> fs)
             ++ [Download
                   (if JS.endsWith (JS.toLowerCase fileName) ".pdf" then fileName
                    else fileName +:+ ".pdf")
                   bytes],
           Ok tt)) \/
     (exists e,
        mergeAndDownloadPdf PDFDocument_load save pages fileName
        = (PDFDocumentLoad <$> fs, Raised e))).
Proof.
  destruct (mergePages_events pages [] ∅) as (fs & Hlog & Hnd & _ & Hres).
  exists fs. split; [done|]. unfold mergeAndDownloadPdf.
  destruct (mergePages PDFDocument_load pages [] ∅) as [log [[mergedPdf cache]|e]].
  - simpl in Hlog, Hres. subst log.
    destruct (save mergedPdf) as [bytes|] eqn:Hsave.
    + left. exists mergedPdf, bytes. split; [done|]. split; [done|].
      unfold bind. by rewrite Hsave.
    + right. exists SerializeError. unfold bind. rewrite Hsave. simpl.
      by rewrite app_nil_r.
  - simpl in Hlog. subst log. right. by exists e.
Qed.

(** From a cache that holds the document of [f], pages of [f] are copied
    without another load. *)
Lemma mergePages_from_cache f doc (cache : gmap string (list string)) :
  cache !! fileKey f = Some doc ->
  forall idxs mergedPdf,
    (forall i, i ∈ idxs -> (i < length doc)%nat) ->
    exists ps,
      mergePages PDFDocument_load (mkItem f <$> idxs) mergedPdf cache
      = ([], Ok (mergedPdf ++ ps, cache)) /\
      Some <$> ps = (fun i => doc !! i) <$> idxs.
Proof.
  intros Hc. induction idxs as [|i idxs IH]; intros mergedPdf Hin.
  - exists []. simpl. by rewrite app_nil_r.
  - destruct (lookup_lt_is_Some_2 doc i) as [page Hpage]; [apply Hin; left|].
    destruct (IH (mergedPdf ++ [page])) as (ps & Hrun & Hps).
    { intros j Hj. apply Hin. by right. }
    exists (page :: ps). rewrite fmap_cons, mergePages_cons. simpl.
    rewrite Hc, Hpage, Hrun, <- app_assoc. split; [done|].
    f_equal. exact Hps.
Qed.

Lemma mergePages_one_source f doc idxs :
  PDFDocument_load (File.data f) = Some doc ->
  idxs <> [] ->
  (forall i, i ∈ idxs -> (i < length doc)%nat) ->
  exists ps,
    mergePages PDFDocument_load (mkItem f <$> idxs) [] ∅
    = ([PDFDocumentLoad f], Ok (ps, {[fileKey f := doc]})) /\
    Some <$> ps = (fun i => doc !! i) <$> idxs.
Proof.
  intros Hdoc Hne Hin. destruct idxs as [|i idxs]; [done|].
  destruct (lookup_lt_is_Some_2 doc i) as [page Hpage]; [apply Hin; left|].
  destruct (mergePages_from_cache f doc (<[fileKey f := doc]> ∅)
              (lookup_insert_eq _ _ _) idxs [page])
    as (ps & Hrun & Hps).
  { intros j Hj. apply Hin. by right. }
  exists (page :: ps). rewrite fmap_cons, mergePages_cons. simpl.
  rewrite lookup_empty, Hdoc, Hpage. simpl. rewrite Hrun. simpl.
  split; [done|]. f_equal. exact Hps.
Qed.

(** An item without a page makes the loop raise, from any cache that holds
    under the key of a referenced file the document of that file. *)
Lemma mergePages_raises pages : forall mergedPdf (cache : gmap string (list string)),
  (forall f g, f ∈ referenced pages -> g ∈ referenced pages ->
     fileKey f = fileKey g -> f = g) ->
  (forall f doc, f ∈ referenced pages -> cache !! fileKey f = Some doc ->
     PDFDocument_load (File.data f) = Some doc) ->
  (exists it, it ∈ pages /\ pageOf PDFDocument_load it = None) ->
  exists e, (mergePages PDFDocument_load pages mergedPdf cache).2 = Raised e.
Proof.
  induction pages as [|it pages IH]; intros mergedPdf cache Hinj Hcache (bad & Hbad & Hnone).
  { by apply elem_of_nil in Hbad. }
  assert (forall f g, f ∈ referenced pages -> g ∈ referenced pages ->
            fileKey f = fileKey g -> f = g) as Hinj'.
  { intros f g Hf Hg. apply Hinj; by right. }
  rewrite mergePages_cons.
  destruct (cache !! fileKey (sourceFile it)) as [doc|] eqn:Hc.
  - assert (PDFDocument_load (File.data (sourceFile it)) = Some doc) as Hdoc.
    { apply Hcache; [left|done]. }
    destruct (doc !! pageIndex it) as [page|] eqn:Hpage; [|by eexists].
    apply IH; [done| |].
    + intros f d Hf. apply Hcache. by right.
    + apply elem_of_cons in Hbad as [->|Hbad]; [|by exists bad].
      unfold pageOf in Hnone. rewrite Hdoc in Hnone. congruence.
  - destruct (PDFDocument_load (File.data (sourceFile it))) as [doc|] eqn:Hdoc;
      [|by eexists].
    destruct (doc !! pageIndex it) as [page|] eqn:Hpage; [|by eexists].
    simpl. apply IH; [done| |].
    + intros f d Hf.
      destruct (decide (fileKey (sourceFile it) = fileKey f)) as [Hkey|Hkey].
      * rewrite Hkey, lookup_insert_eq. intros [= <-].
        rewrite <- (Hinj (sourceFile it) f); [done|left|by right|done].
      * rewrite lookup_insert_ne by done. apply Hcache. by right.
    + apply elem_of_cons in Hbad as [->|Hbad]; [|by exists bad].
      unfold pageOf in Hnone. rewrite Hdoc in Hnone. congruence.
Qed.

Lemma bind_nil_Ok {A B} (a : A) (k : A -> M B) : bind ([], Ok a) k = k a.
Proof. exact (bind_ret a k). Qed.

Lemma arrayMap_silent (fs : list PDFFile.t) (l : list slot) :
  (arrayMap (toProcess fs) l).1 = [].
Proof.
  induction l as [|s l IH]; [done|]. simpl.
  destruct (arrayMap (toProcess fs) l) as [log r]. simpl in IH. subst log.
  destruct s as [|p]; simpl.
  - by destruct fs.
  - destruct (JS.find _ fs); [|done]. rewrite bind_ret. by destruct r.
Qed.

(** X12. One load per key: in every run of the loop, also one that fails,
    the events are loads of referenced files, and no two of the loaded
    files have the same key [`${name}-${size}`]. *)
Theorem mergePages_one_load_per_key (pages : list item) :
  exists fs,
    (mergePages PDFDocument_load pages [] ∅).1 = PDFDocumentLoad <$> fs /\
    NoDup (fileKey <$> fs) /\
    forall f, f ∈ fs -> f ∈ referenced pages.
Proof.
  destruct (mergePages_events pages [] ∅) as (fs & Hlog & Hnd & Hfs & _).
  exists fs. split; [done|]. split; [done|]. intros f Hf. by apply Hfs.
Qed.

(** X13. All or nothing: [mergeAndDownloadPdf] either ends normally, and
    then its last event is the one download, of the serialisation of a
    document with exactly one page per item, or it raises, and then it has
    offered no download; before that it has only loaded sources. *)
Theorem mergeAndDownloadPdf_outcome (pages : list item) (fileName : string) :
  exists fs,
    (exists mergedPdf name bytes,
       save mergedPdf = Some bytes /\
       length mergedPdf = length pages /\
       mergeAndDownloadPdf PDFDocument_load save pages fileName
       = ((PDFDocumentLoad <$> fs) ++ [Download name bytes], Ok tt)) \/
    (exists e,
       mergeAndDownloadPdf PDFDocument_load save pages fileName
       = (PDFDocumentLoad <$> fs, Raised e)).
Proof.
  destruct (mergeAndDownloadPdf_cases pages fileName)
    as (fs & _ & [(mergedPdf & bytes & Hsave & Hlen & Hrun)|(e & Hrun)]);
    exists fs; [left|right].
  - eexists mergedPdf, _, bytes. split; [done|]. split; [done|]. exact Hrun.
  - by exists e.
Qed.

(** X14. The name of the download ends in [.pdf], whatever the case of the
    letters: a name that does so already is taken as it is, any other name
    gets [.pdf] appended. *)
Theorem download_name_ends_in_pdf (pages : list item) (fileName name bytes : string) :
  Download name bytes
  ∈ (mergeAndDownloadPdf PDFDocument_load save pages fileName).1 ->
  JS.endsWith (JS.toLowerCase name) ".pdf" = true /\
  name = (if JS.endsWith (JS.toLowerCase fileName) ".pdf" then fileName
          else fileName +:+ ".pdf").
Proof.
  intros Hin.
  assert (name = (if JS.endsWith (JS.toLowerCase fileName) ".pdf" then fileName
                  else fileName +:+ ".pdf")) as Hname.
  { destruct (mergeAndDownloadPdf_cases pages fileName)
      as (fs & _ & [(mergedPdf & bytes' & _ & _ & Hrun)|(e & Hrun)]);
      rewrite Hrun in Hin; simpl in Hin.
    - apply elem_of_app in Hin as [Hin|Hin].
      + by apply list_elem_of_fmap in Hin as (f & [=] & _).
      + by apply list_elem_of_singleton in Hin as [= -> _].
    - by apply list_elem_of_fmap in Hin as (f & [=] & _). }
  split; [|done]. rewrite Hname.
  destruct (JS.endsWith (JS.toLowerCase fileName) ".pdf") eqn:Hends; [done|].
  rewrite toLowerCase_app. apply (endsWith_app _ ".pdf").
Qed.

(** X15. Pages of one source, in any order and with repetitions: the loop
    loads the source once and returns exactly the chosen pages, in the
    order of the choice. *)
Theorem mergePages_selection (f : File.t) (doc : list string) (idxs : list nat) :
  PDFDocument_load (File.data f) = Some doc ->
  idxs <> [] ->
  (forall i, i ∈ idxs -> (i < length doc)%nat) ->
  exists ps,
    mergePages PDFDocument_load (mkItem f <$> idxs) [] ∅
    = ([PDFDocumentLoad f], Ok (ps, {[fileKey f := doc]})) /\
    Some <$> ps = (fun i => doc !! i) <$> idxs.
Proof. exact (mergePages_one_source f doc idxs). Qed.

Lemma mergePages_whole_source (f : File.t) (doc : list string) :
  PDFDocument_load (File.data f) = Some doc ->
  doc <> [] ->
  mergePages PDFDocument_load (allPagesOf f (length doc)) [] ∅
  = ([PDFDocumentLoad f], Ok (doc, {[fileKey f := doc]})).
Proof.
  intros Hdoc Hne.
  destruct (mergePages_one_source f doc (seq 0 (length doc)) Hdoc)
    as (ps & Hrun & Hps).
  - destruct doc; [done|]. simpl. discriminate.
  - intros i Hi. apply elem_of_seq in Hi. lia.
  - unfold allPagesOf. rewrite Hrun. do 3 f_equal.
    apply (inj (fmap Some)). rewrite Hps. apply list_eq. intros i.
    rewrite !list_lookup_fmap.
    destruct (doc !! i) as [page|] eqn:Hi; simpl.
    + rewrite lookup_seq_lt by (by apply lookup_lt_Some in Hi). simpl.
      by rewrite Hi.
    + rewrite lookup_seq_ge by (by apply lookup_ge_None in Hi). done.
Qed.

(** X16. Round trip: merging all pages of a source in their order gives
    back the pages of the source. *)
Theorem mergePages_round_trip (f : File.t) (doc : list string) :
  PDFDocument_load (File.data f) = Some doc ->
  doc <> [] ->
  mergePages PDFDocument_load (allPagesOf f (length doc)) [] ∅
  = ([PDFDocumentLoad f], Ok (doc, {[fileKey f := doc]})).
Proof. exact (mergePages_whole_source f doc). Qed.

(** X17. With different keys for different referenced files, an item that
    designates no page (its source does not decode, or has no page of that
    index) makes the loop raise a [DecodeError] or a [CopyError]. *)
Theorem mergePages_missing_page (pages : list item) (bad : item) :
  (forall f g, f ∈ referenced pages -> g ∈ referenced pages ->
     fileKey f = fileKey g -> f = g) ->
  bad ∈ pages ->
  pageOf PDFDocument_load bad = None ->
  exists log e,
    mergePages PDFDocument_load pages [] ∅ = (log, Raised e) /\
    (e = DecodeError \/ e = CopyError).
Proof.
  intros Hinj Hbad Hnone.
  destruct (mergePages_raises pages [] ∅ Hinj) as [e He].
  { intros f doc _. by rewrite lookup_empty. }
  { by exists bad. }
  destruct (mergePages_events pages [] ∅) as (fs & _ & _ & _ & Hres).
  rewrite He in Hres.
  destruct (mergePages PDFDocument_load pages [] ∅) as [log r].
  simpl in He. subst r. by exists log, e.
Qed.

(** X18. What an export does: it never changes the registry or the page
    set; on an empty page set it does nothing at all; otherwise it ends
    with loading switched off and, after loads of sources only, either the
    download of [merged_document.pdf] or the console message and the alert,
    never both. *)
Theorem handleDownload_outcome (st : AppState) :
  files (handleDownload PDFDocument_load save st).1 = files st /\
  allPages (handleDownload PDFDocument_load save st).1 = allPages st /\
  match allPages st with
  | [] => handleDownload PDFDocument_load save st = (st, [])
  | _ :: _ =>
      isLoading (handleDownload PDFDocument_load save st).1 = false /\
      exists fs,
        (exists bytes,
           (handleDownload PDFDocument_load save st).2
           = (PDFDocumentLoad <$> fs) ++ [Download "merged_document.pdf" bytes]) \/
        (handleDownload PDFDocument_load save st).2
        = (PDFDocumentLoad <$> fs)
            ++ [ConsoleError "Export error:"; Alert "Failed to export PDF."]
  end.
Proof.
  unfold handleDownload. destruct (allPages st) as [|s l] eqn:Hpages; [done|].
  rewrite <- Hpages. clear Hpages.
  pose proof (arrayMap_silent (files st) (allPages st)) as Hsilent.
  simpl. destruct (arrayMap (toProcess (files st)) (allPages st)) as [log0 [items|e0]].
  - simpl in Hsilent. subst log0.
    destruct (mergeAndDownloadPdf_cases items "merged_document.pdf")
      as (fs & _ & [(mergedPdf & bytes & _ & _ & Hrun)|(e & Hrun)]).
    + rewrite bind_nil_Ok, Hrun. simpl. repeat split.
      exists fs. left. by exists bytes.
    + rewrite bind_nil_Ok, Hrun. simpl. repeat split.
      exists fs. by right.
  - simpl in Hsilent. subst log0. simpl. repeat split. exists []. by right.
Qed.

End MergeFacts.

Lemma download_name_ends_in_pdf_witness :
  JS.endsWith (JS.toLowerCase "Out.PDF") ".pdf" = true /\
  "Out.PDF" = (if JS.endsWith (JS.toLowerCase "Out.PDF") ".pdf" then "Out.PDF"
               else "Out.PDF" +:+ ".pdf").
Proof.
  apply (download_name_ends_in_pdf Sample.PDFDocument_load Sample.save
           Sample.reuse "Out.PDF" "Out.PDF" "A-one|A-one|B-two").
  apply list_elem_of_In. vm_compute. auto.
Defined.

Lemma mergePages_selection_witness :
  exists ps,
    mergePages Sample.PDFDocument_load (mkItem Sample.fileA <$> [2; 0; 0]%nat) [] ∅
    = ([PDFDocumentLoad Sample.fileA],
       Ok (ps, {[fileKey Sample.fileA := ["A-one"; "A-two"; "A-three"]]})) /\
    Some <$> ps
    = (fun i => ["A-one"; "A-two"; "A-three"] !! i) <$> [2; 0; 0]%nat.
Proof.
  apply (mergePages_selection Sample.PDFDocument_load Sample.fileA
           ["A-one"; "A-two"; "A-three"] [2; 0; 0]%nat).
  - reflexivity.
  - discriminate.
  - intros i Hi.
    repeat (apply elem_of_cons in Hi as [->|Hi]); try (by apply elem_of_nil in Hi);
      simpl; lia.
Defined.

Lemma mergePages_round_trip_witness :
  mergePages Sample.PDFDocument_load
    (allPagesOf Sample.fileB (length ["B-one"; "B-two"])) [] ∅
  = ([PDFDocumentLoad Sample.fileB],
     Ok (["B-one"; "B-two"], {[fileKey Sample.fileB := ["B-one"; "B-two"]]})).
Proof.
  apply (mergePages_round_trip Sample.PDFDocument_load Sample.fileB
           ["B-one"; "B-two"]).
  - reflexivity.
  - discriminate.
Defined.

Lemma mergePages_missing_page_witness :
  exists log e,
    mergePages Sample.PDFDocument_load
      [mkItem Sample.fileA 0; mkItem Sample.fileB 5] [] ∅ = (log, Raised e) /\
    (e = DecodeError \/ e = CopyError).
Proof.
  apply (mergePages_missing_page Sample.PDFDocument_load
           [mkItem Sample.fileA 0; mkItem Sample.fileB 5] (mkItem Sample.fileB 5)).
  - intros f g Hf Hg Hkey.
    repeat (apply elem_of_cons in Hf as [->|Hf]);
      repeat (apply elem_of_cons in Hg as [->|Hg]);
      try reflexivity;
      try (by apply elem_of_nil in Hf); try (by apply elem_of_nil in Hg);
      vm_compute in Hkey; discriminate.
  - right. left.
  - reflexivity.
Defined.

(** * The cache key *)

Lemma dashFree_app_dash (a b : string) : dashFree (a +:+ String "-" b) = false.
Proof. induction a as [|c a IH]; simpl; [done|]. rewrite IH. apply andb_false_r. Qed.

Lemma pretty_N_char_no_dash (x : N) : Ascii.eqb (pretty_N_char x) "-" = false.
Proof. unfold pretty_N_char. by repeat case_match. Qed.

Lemma dashFree_pretty_N_go (x : N) : forall s,
  dashFree s = true -> dashFree (pretty_N_go x s) = true.
Proof.
  induction (N.lt_wf_0 x) as [x _ IH]. intros s Hs.
  destruct (decide (x = 0)%N) as [->|Hne]; [by rewrite pretty_N_go_0|].
  rewrite pretty_N_go_step by lia. apply IH.
  - apply N.div_lt; lia.
  - simpl. by rewrite pretty_N_char_no_dash, Hs.
Qed.

Lemma dashFree_pretty (x : N) : dashFree (pretty x) = true.
Proof.
  unfold pretty, pretty_N. case_decide; [done|]. by apply dashFree_pretty_N_go.
Qed.

Lemma key_split (a b d e : string) :
  dashFree d = true -> dashFree e = true ->
  a +:+ "-" +:+ d = b +:+ "-" +:+ e -> a = b /\ d = e.
Proof.
  intros Hd He. revert b.
  induction a as [|c a IH]; intros [|c' b] Heq.
  - change (String "-" d = String "-" e) in Heq. by injection Heq as ->.
  - change (String "-" d = String c' (b +:+ String "-" e)) in Heq.
    injection Heq as _ ->. by rewrite dashFree_app_dash in Hd.
  - change (String c (a +:+ String "-" d) = String "-" e) in Heq.
    injection Heq as _ <-. by rewrite dashFree_app_dash in He.
  - change (String c (a +:+ "-" +:+ d) = String c' (b +:+ "-" +:+ e)) in Heq.
    injection Heq as -> Hrest. by destruct (IH b Hrest) as [-> ->].
Qed.

(** X19. When the cache takes two files for one: two files have the same
    key exactly when they have the same name and the same size; the type
    and the bytes play no part. *)
Theorem fileKey_eq_iff (f g : File.t) :
  fileKey f = fileKey g <->
  File.name f = File.name g /\ File.size f = File.size g.
Proof.
  unfold fileKey. split.
  - intros Hkey. apply key_split in Hkey as [Hname Hsize];
      [|apply dashFree_pretty..].
    split; [done|]. by apply (inj pretty).
  - by intros [-> ->].
Qed.

(** * From the upload to the export *)



Section EndToEnd.

Variable getDocument : string -> option PDFDocumentProxy.
Variable getContext : File.t -> nat -> bool.
Variable PDFDocument_load : string -> option (list string).
Variable save : list string -> option string.


End EndToEnd.


(** * The page index of an uploaded page *)

Section PageIndexFacts.

Variable getDocument : string -> option PDFDocumentProxy.
Variable getContext : File.t -> nat -> bool.


End PageIndexFacts.


Lemma loadPdfAndGetPreviews_previews_witness :
  exists ps,
    loadPdfAndGetPreviews Sample.getDocument Sample.getContext Sample.fileNoCtx
    = ([GetDocument Sample.fileNoCtx],
       Ok (mkPreviews (numPages (Sample.proxy [Some "B1"; Some "B2"])) ps)) /\
    Some <$> ps
    = pageUrl (Sample.proxy [Some "B1"; Some "B2"])
        <$> filter (fun i => Sample.getContext Sample.fileNoCtx i)
              (seq 1 (numPages (Sample.proxy [Some "B1"; Some "B2"]))).
Proof.
  apply (loadPdfAndGetPreviews_previews Sample.getDocument Sample.getContext
           Sample.fileNoCtx (Sample.proxy [Some "B1"; Some "B2"])).
  - reflexivity.
  - intros i Hi. simpl in Hi.
    destruct i as [|[|[|i]]]; try lia; (split; [by eexists|intros _; by eexists]).
Defined.
